(** * Auto-review-tool: the repository collector, the prompt builder,
      the review client and the request handler of [app.py]

    The development embeds [collect_code_from_github_repo],
    [get_mistral_review] and [review] of [src/app.py] and proves the
    properties the specification states about them.

    - A Python [str] is a sequence of Unicode code points: [pystr],
      a list of [N].  [len] is [length], [s[:n]] is [firstn n s],
      [+] / f-string interpolation is [++].
    - Exceptions, the outbound HTTP requests and the logger calls are
      effects: a computation is a function from the effects so far to an
      outcome and the effects afterwards (monad [M]).
    - What the outside world answers (GitHub, Mistral, the environment,
      the library decoders) is a parameter: a [World].
    - A JSON object of the repository service is modelled by the keys
      the code reads: a key read with [.get(key, default)] is optional,
      a key read with [item[key]] is a field of a record, as in the data
      model of the specification (RepositoryTree entries have a path, a
      type and a url).
    - [raise_for_status] is the one of current httpx: it raises for
      every status outside 200-299. *)

From Stdlib Require Import String Ascii DecimalString.
From Stdlib Require Import List Bool Arith NArith ZArith Lia.
From Stdlib.Strings Require Byte.
Import ListNotations.

Set Implicit Arguments.

(** ** Python strings *)

Definition pystr := list N.

(** An ASCII literal of the source, as a [pystr]. *)
Definition lit (s : string) : pystr :=
  map N_of_ascii (list_ascii_of_string s).
Arguments lit s%_string.

(** The double-quote character, for the literals that contain one. *)
Definition dquote : pystr := [34%N].

Fixpoint pystr_eqb (a b : pystr) : bool :=
  match a, b with
  | [], [] => true
  | x :: a', y :: b' => N.eqb x y && pystr_eqb a' b'
  | _, _ => false
  end.

(** [s.startswith(p)] *)
Fixpoint startswith (s p : pystr) : bool :=
  match p, s with
  | [], _ => true
  | y :: p', x :: s' => N.eqb x y && startswith s' p'
  | _ :: _, [] => false
  end.

(** [s.endswith(suf)]: the last [len(suf)] characters of [s] are [suf]. *)
Definition endswith (s suf : pystr) : bool :=
  (length suf <=? length s) &&
  pystr_eqb (skipn (length s - length suf) s) suf.

(** [needle in hay] for strings: [needle] occurs somewhere in [hay]. *)
Fixpoint contains (hay needle : pystr) : bool :=
  startswith hay needle ||
  match hay with
  | [] => false
  | _ :: hay' => contains hay' needle
  end.

(** [s.lstrip(c)], [s.rstrip(c)] and [s.strip(c)] for a one-character [c]. *)
Fixpoint lstrip (c : N) (s : pystr) : pystr :=
  match s with
  | x :: s' => if N.eqb x c then lstrip c s' else s
  | [] => []
  end.

Definition rstrip (c : N) (s : pystr) : pystr := rev (lstrip c (rev s)).

Definition strip (c : N) (s : pystr) : pystr := rstrip c (lstrip c s).

(** [s.split(c)] for a one-character separator: never empty. *)
Fixpoint split (c : N) (s : pystr) : list pystr :=
  match s with
  | [] => [[]]
  | x :: s' =>
      if N.eqb x c then [] :: split c s'
      else match split c s' with
           | w :: ws => (x :: w) :: ws
           | [] => [[x]]
           end
  end.

(** [str(n)] of an integer. *)
Definition str_of_Z (z : Z) : pystr :=
  lit (NilZero.string_of_int (Z.to_int z)).

(** [html.escape(s)] with its default [quote=True]: the five characters
    [&], [<], [>], the double quote and the single quote are replaced. *)
Definition escape_char (c : N) : pystr :=
  if N.eqb c 38 then lit "&amp;"
  else if N.eqb c 60 then lit "&lt;"
  else if N.eqb c 62 then lit "&gt;"
  else if N.eqb c 34 then lit "&quot;"
  else if N.eqb c 39 then lit "&#x27;"
  else [c].

Definition html_escape (s : pystr) : pystr := flat_map escape_char s.

Definition slash : N := 47%N.

(** ** Exceptions, effects and the monad of computations *)

(** The exception classes the code raises, catches or can receive from
    the libraries it calls.  [Exception] is the plain base class. *)
Inductive exc_class :=
| Exception
| ValueError
| JSONDecodeError
| UnicodeDecodeError
| BinasciiError
| KeyError
| AttributeError
| TypeError
| HTTPStatusError
| RequestError.

Definition exc_class_eqb (c d : exc_class) : bool :=
  match c, d with
  | Exception, Exception | ValueError, ValueError
  | JSONDecodeError, JSONDecodeError | UnicodeDecodeError, UnicodeDecodeError
  | BinasciiError, BinasciiError | KeyError, KeyError
  | AttributeError, AttributeError | TypeError, TypeError
  | HTTPStatusError, HTTPStatusError | RequestError, RequestError => true
  | _, _ => false
  end.

(** [issubclass c d]: [json.JSONDecodeError], [UnicodeDecodeError] and
    [binascii.Error] derive from [ValueError]; everything derives from
    [Exception]. *)
Definition issubclass (c d : exc_class) : bool :=
  match d with
  | Exception => true
  | ValueError =>
      match c with
      | ValueError | JSONDecodeError | UnicodeDecodeError | BinasciiError => true
      | _ => false
      end
  | _ => exc_class_eqb c d
  end.

(** An exception object: its class, [str(e)], and for an
    [httpx.HTTPStatusError] the status code and text of [e.response]. *)
Record exn := {
  exc_type : exc_class;
  exc_str : pystr;
  exc_response : option (Z * pystr)
}.

Definition isinstance (e : exn) (c : exc_class) : bool :=
  issubclass (exc_type e) c.

Inductive outcome (A : Type) :=
| Ok (a : A)
| Raise (e : exn).
Arguments Ok {A} a.
Arguments Raise {A} e.

(** An outbound HTTP request.  Of the POST to the completion service the
    two parts that vary are kept: the [Authorization] header and the
    user message; the rest of the payload is constant. *)
Inductive request :=
| GET (url : pystr)
| POST (url : pystr) (authorization : pystr) (prompt : pystr).

Inductive level := INFO | WARNING | ERROR.

(** What a run has done to the outside so far. *)
Record effects := {
  requests : list request;
  logs : list (level * pystr)
}.

Definition no_effects : effects := {| requests := []; logs := [] |}.

Definition M (A : Type) := effects -> outcome A * effects.

Definition ret {A} (a : A) : M A := fun s => (Ok a, s).

Definition bind {A B} (m : M A) (k : A -> M B) : M B :=
  fun s => match m s with
           | (Ok a, s') => k a s'
           | (Raise e, s') => (Raise e, s')
           end.

Notation "x <- m ;; k" := (bind m (fun x => k))
  (at level 61, m at next level, right associativity).
Notation "m ;;; k" := (bind m (fun _ => k))
  (at level 61, right associativity).

Definition raise {A} (c : exc_class) (msg : pystr) : M A :=
  fun s => (Raise {| exc_type := c; exc_str := msg; exc_response := None |}, s).

(** [str(KeyError(msg))] is [repr(msg)]: the message between single
    quotes (none of the messages of the source contains one). *)
Definition raise_KeyError {A} (msg : pystr) : M A :=
  raise KeyError (lit "'" ++ msg ++ lit "'").

Definition lift {A} (o : outcome A) : M A := fun s => (o, s).

(** [try: body except C1 as e: h1 except C2 as e: h2 ...]: the first
    clause whose class the exception is an instance of handles it. *)
Definition try_except {A} (body : M A)
    (handlers : list (exc_class * (exn -> M A))) : M A :=
  fun s => match body s with
           | (Ok a, s') => (Ok a, s')
           | (Raise e, s') =>
               match find (fun h => isinstance e (fst h)) handlers with
               | Some h => snd h e s'
               | None => (Raise e, s')
               end
           end.

(** The effects after one more request, after one more log record. *)
Definition sent (s : effects) (r : request) : effects :=
  {| requests := requests s ++ [r]; logs := logs s |}.

Definition logged (s : effects) (l : level) (msg : pystr) : effects :=
  {| requests := requests s; logs := logs s ++ [(l, msg)] |}.

Definition log (l : level) (msg : pystr) : M unit :=
  fun s => (Ok tt, logged s l msg).

(** ** Data model *)

(** An entry of the repository tree as the code reads it:
    [item['path']], [item['type']], [item['url']]. *)
Record tree_item := {
  path : pystr;
  type : pystr;
  url : pystr
}.

(** A JSON object of the repository service, by the four keys the code
    reads with [.get(key, default)]; [None] is an absent key. *)
Record github_json := {
  default_branch : option pystr;
  tree : option (list tree_item);
  content : option pystr;
  encoding : option pystr
}.

(** A JSON value of the completion service, which the code inspects
    with [isinstance] and truth tests (numbers as integers). *)
#[local] Set Warnings "-register-all".
Inductive json :=
| JNull
| JBool (b : bool)
| JInt (z : Z)
| JStr (s : pystr)
| JList (l : list json)
| JDict (kv : list (pystr * json)).

(** An [httpx.Response]: [.status_code], [.text] and what [.json()]
    gives, which raises when the body is not JSON. *)
Record response (B : Type) := {
  status_code : Z;
  text : pystr;
  body_json : outcome B
}.

(** [urlparse(url)], by the two attributes the code reads. *)
Record ParseResult := {
  netloc : pystr;
  url_path : pystr
}.

(** The outside world.  The answer to a request may depend on the
    requests made before it. *)
Record World := {
  urlparse : pystr -> ParseResult;
  github : list request -> pystr -> outcome (response github_json);
  mistral : list request -> pystr -> pystr -> pystr -> outcome (response json);
  MISTRAL_API_KEY : option pystr;
  b64decode : pystr -> outcome (list Byte.byte);
  decode_utf8 : list Byte.byte -> outcome pystr;
  status_error_str : Z -> pystr
}.

Record ReviewRequest := {
  assignment_description : pystr;
  github_url_repo : pystr;
  candidate_level : pystr
}.

(** What the endpoint answers: [{'review': ...}] with status 200, or the
    [HTTPException] the handler raises. *)
Inductive reply :=
| Review (review_text : json)
| HTTPException (status : Z) (detail : pystr).

(** ** Dynamic access to the JSON of the completion service *)

(** Truth value of a JSON value in a Python [if]. *)
Definition truthy (j : json) : bool :=
  match j with
  | JNull => false
  | JBool b => b
  | JInt z => negb (Z.eqb z 0)
  | JStr s => negb (pystr_eqb s [])
  | JList l => match l with [] => false | _ => true end
  | JDict kv => match kv with [] => false | _ => true end
  end.

Definition is_list (j : json) : bool :=
  match j with JList _ => true | _ => false end.

Definition is_dict (j : json) : bool :=
  match j with JDict _ => true | _ => false end.

Fixpoint lookup (k : pystr) (kv : list (pystr * json)) : option json :=
  match kv with
  | [] => None
  | (k', v) :: kv' => if pystr_eqb k k' then Some v else lookup k kv'
  end.

(** [j.get(k)]: [None] for an absent key, [AttributeError] when [j] is
    not a dict. *)
Definition dict_get (j : json) (k : pystr) : M json :=
  match j with
  | JDict kv => ret (match lookup k kv with Some v => v | None => JNull end)
  | _ => raise AttributeError (lit "object has no attribute 'get'")
  end.

(** [l[0]] of a value already known to be a non-empty list. *)
Definition first_item (j : json) : M json :=
  match j with
  | JList (x :: _) => ret x
  | JList [] => raise Exception (lit "list index out of range")
  | _ => raise TypeError (lit "object is not subscriptable")
  end.

(** ** The program *)

Definition nl : pystr := [10%N].

#[local] Set Warnings "-abstract-large-number".
Definition max_code_length : nat := 20000.
Definition max_files : nat := 100.

Definition allowed_extensions : list pystr :=
  [lit ".py"; lit ".js"; lit ".java"; lit ".cpp"; lit ".c"; lit ".cs";
   lit ".rb"; lit ".go"; lit ".php"; lit ".html"; lit ".css"; lit ".swift";
   lit ".kt"].

Definition code_truncated : pystr :=
  nl ++ nl ++ lit "// Code truncated due to size limitations.".

Definition prompt_truncated : pystr :=
  nl ++ nl ++ lit "// Prompt truncated due to size limitations.".

Definition access_rights_message : pystr :=
  lit "Failed to access GitHub repository. Check the URL and access rights.".

Definition mistral_http_error : pystr :=
  lit "HTTP error when accessing Mistral AI API.".

Definition internal_error_message : pystr :=
  lit "An internal server error occurred. Please try again later.".

(** The three variables the loop of the collector updates. *)
Record loop_state := {
  code : pystr;
  file_list : pystr;
  file_count : nat
}.

Definition loop_init : loop_state :=
  {| code := [];
     file_list := nl ++ lit "All repository files:" ++ nl;
     file_count := 0 |}.

(** Line 89: the test that leaves the loop. *)
Definition stop_condition (st : loop_state) : bool :=
  (max_files <=? file_count st) || (max_code_length <=? length (code st)).

(** Line 91: [file_list += f"{item['path']}\n"]. *)
Definition list_path (st : loop_state) (p : pystr) : loop_state :=
  {| code := code st;
     file_list := file_list st ++ (p ++ nl);
     file_count := file_count st |}.

(** Line 111: what a decoded file adds to the corpus. *)
Definition file_entry (p file_content : pystr) : pystr :=
  nl ++ nl ++ lit "// File: " ++ p ++ nl ++ file_content.

(** How an iteration of the loop ends: it goes on with the next entry
    (end of the body or [continue]) or leaves the loop ([break]). *)
Inductive control :=
| Next (st : loop_state)
| Break (st : loop_state).

Definition from_option {A} (d : A) (o : option A) : A :=
  match o with Some a => a | None => d end.

Section Program.

Variable W : World.

(** [client.get(url)]: the request goes out, then the world answers or
    the call raises. *)
Definition client_get (u : pystr) : M (response github_json) :=
  fun s => (github W (requests s) u, sent s (GET u)).

Definition client_post (u authorization prompt : pystr) : M (response json) :=
  fun s => (mistral W (requests s) u authorization prompt,
            sent s (POST u authorization prompt)).

(** [response.raise_for_status()]: [HTTPStatusError] unless 2xx. *)
Definition raise_for_status {B} (r : response B) : M unit :=
  if (200 <=? status_code r)%Z && (status_code r <=? 299)%Z then ret tt
  else fun s =>
    (Raise {| exc_type := HTTPStatusError;
              exc_str := status_error_str W (status_code r);
              exc_response := Some (status_code r, text r) |}, s).

(** Lines 111-116: append the file, count it, enforce the cap. *)
Definition append_file (st : loop_state) (p file_content : pystr) : control :=
  let code1 := code st ++ file_entry p file_content in
  let file_count1 := file_count st + 1 in
  if max_code_length <? length code1 then
    Break {| code := firstn max_code_length code1 ++ code_truncated;
             file_list := file_list st;
             file_count := file_count1 |}
  else
    Next {| code := code1; file_list := file_list st; file_count := file_count1 |}.

(** Lines 99-122: the [try] around the fetch of one eligible blob. *)
Definition fetch_blob (item : tree_item) (st : loop_state) : M control :=
  let p := path item in
  let blob_url := url item in
  try_except
    (blob_response <- client_get blob_url ;;
     if (status_code blob_response =? 200)%Z then
       blob_data <- lift (body_json blob_response) ;;
       let content := from_option [] (content blob_data) in
       let encoding := from_option [] (encoding blob_data) in
       if pystr_eqb encoding (lit "base64") then
         decoded <- try_except
           (raw <- lift (b64decode W content) ;;
            file_content <- lift (decode_utf8 W raw) ;;
            ret (Some file_content))
           [(UnicodeDecodeError, fun _ =>
               log WARNING (lit "File " ++ p ++ lit " cannot be decoded in UTF-8, skipping.") ;;;
               ret None)] ;;
         match decoded with
         | None => ret (Next st)
         | Some file_content => ret (append_file st p file_content)
         end
       else
         log WARNING (lit "Unknown encoding format for file " ++ p) ;;;
         ret (Next st)
     else
       log ERROR (lit "Error fetching file " ++ p ++ lit ": "
                  ++ str_of_Z (status_code blob_response)) ;;;
       ret (Next st))
    [(Exception, fun e =>
        log ERROR (lit "Error reading file " ++ p ++ lit ": " ++ exc_str e) ;;;
        ret (Next st))].

(** Lines 88-122: the loop over the tree. *)
Fixpoint collect_loop (tree : list tree_item) (st : loop_state) : M loop_state :=
  match tree with
  | [] => ret st
  | item :: rest =>
      if stop_condition st then ret st
      else
        let st := list_path st (path item) in
        if pystr_eqb (type item) (lit "blob") then
          let p := path item in
          if negb (existsb (endswith p) allowed_extensions) then
            log INFO (lit "Skipping file with unsuitable extension: " ++ p) ;;;
            collect_loop rest st
          else
            log INFO (lit "Processing file: " ++ p) ;;;
            c <- fetch_blob item st ;;
            match c with
            | Next st' => collect_loop rest st'
            | Break st' => ret st'
            end
        else collect_loop rest st
  end.

Definition repo_api_url (owner repo_name : pystr) : pystr :=
  lit "https://api.github.com/repos/" ++ owner ++ lit "/" ++ repo_name.

Definition tree_url (owner repo_name default_branch : pystr) : pystr :=
  lit "https://api.github.com/repos/" ++ owner ++ lit "/" ++ repo_name
  ++ lit "/git/trees/" ++ default_branch ++ lit "?recursive=1".

Definition collect_code_from_github_repo (repo_url : pystr) : M pystr :=
  let parsed_url := urlparse W repo_url in
  if negb (pystr_eqb (netloc parsed_url) (lit "github.com")) then
    raise ValueError (lit "Invalid domain in GitHub repository URL.")
  else
    let path_parts := split slash (strip slash (url_path parsed_url)) in
    if length path_parts <? 2 then
      raise ValueError (lit "Invalid path in GitHub repository URL.")
    else
      let owner := nth 0 path_parts [] in
      let repo_name := nth 1 path_parts [] in
      response <- client_get (repo_api_url owner repo_name) ;;
      if negb (status_code response =? 200)%Z then
        log ERROR (lit "Error fetching repository data: "
                   ++ str_of_Z (status_code response)) ;;;
        raise ValueError access_rights_message
      else
        repo_data <- lift (body_json response) ;;
        let default_branch := from_option (lit "main") (default_branch repo_data) in
        response <- client_get (tree_url owner repo_name default_branch) ;;
        if negb (status_code response =? 200)%Z then
          log ERROR (lit "Error fetching repository tree: "
                     ++ str_of_Z (status_code response)) ;;;
          raise ValueError (lit "Failed to retrieve GitHub repository content.")
        else
          tree_data <- lift (body_json response) ;;
          let tree := from_option [] (tree tree_data) in
          st <- collect_loop tree loop_init ;;
          ret (code st ++ file_list st).

(** *** What the world answers for one blob

    The outcomes of lines 100-110 for the entry [item], when the
    requests [reqs] have been made before its fetch. *)

(** The file is fetched and decoded to the text [file_content]. *)
Definition blob_decodes (reqs : list request) (item : tree_item)
    (file_content : pystr) : Prop :=
  exists r d raw,
    github W reqs (url item) = Ok r /\
    status_code r = 200%Z /\
    body_json r = Ok d /\
    from_option [] (encoding d) = lit "base64" /\
    b64decode W (from_option [] (content d)) = Ok raw /\
    decode_utf8 W raw = Ok file_content.

(** The per-file failures. *)
Inductive blob_failure (reqs : list request) (item : tree_item) : Prop :=
| fetch_raises e :
    github W reqs (url item) = Raise e -> blob_failure reqs item
| fetch_not_200 r :
    github W reqs (url item) = Ok r -> status_code r <> 200%Z ->
    blob_failure reqs item
| body_not_json r e :
    github W reqs (url item) = Ok r -> status_code r = 200%Z ->
    body_json r = Raise e -> blob_failure reqs item
| unknown_encoding r d :
    github W reqs (url item) = Ok r -> status_code r = 200%Z ->
    body_json r = Ok d -> from_option [] (encoding d) <> lit "base64" ->
    blob_failure reqs item
| base64_failure r d e :
    github W reqs (url item) = Ok r -> status_code r = 200%Z ->
    body_json r = Ok d -> from_option [] (encoding d) = lit "base64" ->
    b64decode W (from_option [] (content d)) = Raise e ->
    blob_failure reqs item
| utf8_failure r d raw e :
    github W reqs (url item) = Ok r -> status_code r = 200%Z ->
    body_json r = Ok d -> from_option [] (encoding d) = lit "base64" ->
    b64decode W (from_option [] (content d)) = Ok raw ->
    decode_utf8 W raw = Raise e ->
    blob_failure reqs item.

(** A fetch (metadata or tree) that succeeds with the JSON object [d]. *)
Definition fetch_succeeds (reqs : list request) (u : pystr) (d : github_json) : Prop :=
  exists r, github W reqs u = Ok r /\ status_code r = 200%Z /\ body_json r = Ok d.

(** Lines 217-229 of [review]: the template, then the cap on the prompt. *)
Definition indent : pystr := lit "        ".

Definition prompt_template
    (candidate_level assignment_description safe_project_code : pystr) : pystr :=
  nl ++ indent
  ++ lit "Please analyze the following project, paying particular attention to the fact that the candidate is applying for the "
  ++ candidate_level
  ++ lit " level, and provide feedback according to the response structure."
  ++ nl ++ nl ++ indent
  ++ lit "Short project description: " ++ assignment_description
  ++ nl ++ nl ++ indent
  ++ lit "Project code:"
  ++ nl ++ indent ++ safe_project_code
  ++ nl ++ indent
  ++ lit "Please provide your feedback considering the " ++ candidate_level
  ++ lit " vacancy level."
  ++ nl ++ indent.

Definition max_prompt_length : nat := 20000.

Definition build_prompt
    (candidate_level assignment_description safe_project_code : pystr) : pystr :=
  let prompt :=
    prompt_template candidate_level assignment_description safe_project_code in
  if max_prompt_length <? length prompt then
    firstn max_prompt_length prompt ++ prompt_truncated
  else prompt.

Definition api_url : pystr := lit "https://api.mistral.ai/v1/chat/completions".

Definition invalid_format : pystr :=
  lit "Invalid response format from Mistral AI API: ".

(** Lines 184-196: the envelope of the completion service. *)
Definition extract_review_text (response_json : json) : M json :=
  try_except
    (choices <- dict_get response_json (lit "choices") ;;
     if negb (truthy choices) || negb (is_list choices) then
       raise_KeyError (lit "Field " ++ dquote ++ lit "choices" ++ dquote
                       ++ lit " is missing or has an incorrect format.")
     else
       choice <- first_item choices ;;
       message <- dict_get choice (lit "message") ;;
       if negb (truthy message) || negb (is_dict message) then
         raise_KeyError (lit "Field " ++ dquote ++ lit "message" ++ dquote
                         ++ lit " is missing or has an incorrect format.")
       else
         review_text <- dict_get message (lit "content") ;;
         if negb (truthy review_text) then
           raise_KeyError (lit "Field " ++ dquote ++ lit "content" ++ dquote
                           ++ lit " is missing.")
         else ret review_text)
    [(KeyError, fun e =>
        log ERROR (invalid_format ++ exc_str e) ;;;
        raise Exception (invalid_format ++ exc_str e))].

Definition get_mistral_review (prompt : pystr) : M json :=
  match MISTRAL_API_KEY W with
  | None | Some [] =>
      raise Exception (lit "Mistral AI API key not found in environment variables.")
  | Some api_key =>
      try_except
        (response <- client_post api_url (lit "Bearer " ++ api_key) prompt ;;
         raise_for_status response ;;;
         response_json <- lift (body_json response) ;;
         extract_review_text response_json)
        [(HTTPStatusError, fun http_err =>
            log ERROR
              (lit "HTTP error when accessing Mistral AI API: "
               ++ match exc_response http_err with
                  | Some (sc, t) => str_of_Z sc ++ lit " - " ++ t
                  | None => []
                  end) ;;;
            raise Exception mistral_http_error);
         (Exception, fun e =>
            log ERROR (lit "Error when accessing Mistral AI API: " ++ exc_str e) ;;;
            raise Exception (invalid_format ++ exc_str e))]
  end.

(** The handler of [POST /review].  Each [except] clause raises an
    [HTTPException], which is the reply the caller gets. *)
Definition review (review_request : ReviewRequest) : M reply :=
  try_except
    (let assignment_description := assignment_description review_request in
     let github_url_repo := github_url_repo review_request in
     let candidate_level := candidate_level review_request in
     project_code <- collect_code_from_github_repo github_url_repo ;;
     let safe_project_code := html_escape project_code in
     let prompt :=
       build_prompt candidate_level assignment_description safe_project_code in
     log INFO (lit "Sending request to Mistral AI for review.") ;;;
     review_text <- get_mistral_review prompt ;;
     ret (Review review_text))
    [(ValueError, fun ve => ret (HTTPException 400 (exc_str ve)));
     (HTTPStatusError, fun he =>
        log ERROR (lit "Error accessing GitHub: " ++ exc_str he) ;;;
        ret (HTTPException 400 access_rights_message));
     (Exception, fun e =>
        log ERROR (lit "Internal server error: " ++ exc_str e) ;;;
        if contains (exc_str e) (lit "HTTP error when accessing Mistral AI API")
        then ret (HTTPException 500 mistral_http_error)
        else ret (HTTPException 500 internal_error_message))].

End Program.

(** ** Vocabulary of the statements *)

(** A blob whose path has an allowed extension (lines 92-94). *)
Definition eligible (item : tree_item) : bool :=
  pystr_eqb (type item) (lit "blob")
  && existsb (endswith (path item)) allowed_extensions.


(** The lines of the manifest for the entries [items]. *)
Definition manifest_lines (items : list tree_item) : pystr :=
  concat (map (fun item => path item ++ nl) items).


Definition is_GET (r : request) : bool :=
  match r with GET _ => true | POST _ _ _ => false end.

(** The computation [m] adds to the requests made so far only requests
    that satisfy [Q]. *)
Definition only_sends {A} (Q : request -> Prop) (m : M A) : Prop :=
  forall s, exists l, requests (snd (m s)) = requests s ++ l /\ Forall Q l.

(** The parts of the repository URL the collector uses (lines 52-60). *)
Definition path_parts (W : World) (repo_url : pystr) : list pystr :=
  split slash (strip slash (url_path (urlparse W repo_url))).

Definition owner (W : World) (repo_url : pystr) : pystr :=
  nth 0 (path_parts W repo_url) [].

Definition repo_name (W : World) (repo_url : pystr) : pystr :=
  nth 1 (path_parts W repo_url) [].

Definition well_formed_url (W : World) (repo_url : pystr) : Prop :=
  netloc (urlparse W repo_url) = lit "github.com" /\
  2 <= length (path_parts W repo_url).

(** The URLs of the two fetches that precede the loop (lines 62, 72). *)
Definition metadata_url (W : World) (repo_url : pystr) : pystr :=
  repo_api_url (owner W repo_url) (repo_name W repo_url).

Definition branch_tree_url (W : World) (repo_url : pystr) (repo_data : github_json)
    : pystr :=
  tree_url (owner W repo_url) (repo_name W repo_url)
    (from_option (lit "main") (default_branch repo_data)).

(** The effects when the fetch of an eligible entry has been made. *)
Definition fetched (s : effects) (item : tree_item) : effects :=
  sent (logged s INFO (lit "Processing file: " ++ path item)) (GET (url item)).

(** The loop variables after a file that fits, and after one that is cut. *)
Definition appended (st : loop_state) (p fc : pystr) : loop_state :=
  {| code := code st ++ file_entry p fc;
     file_list := file_list st ++ (p ++ nl);
     file_count := file_count st + 1 |}.

Definition truncated (st : loop_state) (p fc : pystr) : loop_state :=
  {| code := firstn max_code_length (code st ++ file_entry p fc) ++ code_truncated;
     file_list := file_list st ++ (p ++ nl);
     file_count := file_count st + 1 |}.


(** ** The request validators (lines 30-49) *)

Definition valid_levels : list pystr :=
  [lit "Junior"; lit "Middle"; lit "Senior"].

Definition value_error {A} (msg : pystr) : outcome A :=
  Raise {| exc_type := ValueError; exc_str := msg; exc_response := None |}.

(** [validate_candidate_level]: [v not in valid_levels]. *)
Definition validate_candidate_level (v : pystr) : outcome pystr :=
  if negb (existsb (pystr_eqb v) valid_levels) then
    value_error
      (lit "Invalid candidate level. Allowed values: Junior, Middle, Senior.")
  else Ok v.

(** [validate_github_url]; [validators_url v] is the truth value of
    [validators.url(v)]. *)
Definition validate_github_url (W : World) (validators_url : pystr -> bool)
    (v : pystr) : outcome pystr :=
  if negb (validators_url v) then
    value_error (lit "Invalid GitHub repository URL.")
  else
    let parsed_url := urlparse W v in
    if negb (pystr_eqb (netloc parsed_url) (lit "github.com")) then
      value_error (lit "URL must be a GitHub repository.")
    else Ok v.

(** ** More vocabulary *)

(** The envelope the review client accepts (lines 185-193): an object
    whose [choices] is a list that starts with an object whose
    [message] is an object whose [content] is the true value [v]. *)
Definition well_formed_envelope (j v : json) : Prop :=
  exists kv kv_choice rest kv_message,
    j = JDict kv /\
    lookup (lit "choices") kv = Some (JList (JDict kv_choice :: rest)) /\
    lookup (lit "message") kv_choice = Some (JDict kv_message) /\
    lookup (lit "content") kv_message = Some v /\
    truthy v = true.

(** What [/review] answers when the collector raises [e] (lines
    235-245). *)
Definition collection_error_reply (e : exn) : reply :=
  if isinstance e ValueError then HTTPException 400 (exc_str e)
  else if isinstance e HTTPStatusError then HTTPException 400 access_rights_message
  else if contains (exc_str e) (lit "HTTP error when accessing Mistral AI API")
  then HTTPException 500 mistral_http_error
  else HTTPException 500 internal_error_message.

(** The log records above the level of information, and how many of
    them a run has written. *)
Definition is_problem (r : level * pystr) : bool :=
  match fst r with
  | INFO => false
  | WARNING | ERROR => true
  end.

Definition problems (s : effects) : nat := length (filter is_problem (logs s)).

(** A status for which [raise_for_status] does not raise. *)
Definition in_2xx (sc : Z) : Prop := (200 <= sc <= 299)%Z.

(** The characters [html.escape] replaces, the ampersand apart. *)
Definition markup_char (c : N) : bool :=
  N.eqb c 60 || N.eqb c 62 || N.eqb c 34 || N.eqb c 39.

(** ** Concrete worlds

    The library functions and the mocked upstream services of
    [tests.py], to run the program on. *)

Module Mock.

#[local] Open Scope N_scope.

(** Value of a character of the base64 alphabet. *)
Definition b64_value (c : N) : option N :=
  if (65 <=? c) && (c <=? 90) then Some (c - 65)
  else if (97 <=? c) && (c <=? 122) then Some (c - 71)
  else if (48 <=? c) && (c <=? 57) then Some (c + 4)
  else if c =? 43 then Some 62
  else if c =? 47 then Some 63
  else None.

Definition pad : N := 61.

Definition binascii_error {A} (msg : pystr) : outcome A :=
  Raise {| exc_type := BinasciiError; exc_str := msg; exc_response := None |}.

Definition to_byte (n : N) : Byte.byte :=
  match Byte.of_N (n mod 256) with Some b => b | None => Byte.x00 end.

(** Groups of four characters to groups of three bytes, [=] padding at
    the end. *)
Fixpoint b64_quads (s : pystr) : outcome (list Byte.byte) :=
  match s with
  | [] => Ok []
  | a :: b :: c :: d :: rest =>
      match b64_value a, b64_value b with
      | Some va, Some vb =>
          let b0 := to_byte (va * 4 + vb / 16) in
          if (c =? pad) && (d =? pad) then
            match rest with [] => Ok [b0] | _ => binascii_error (lit "Excess data after padding") end
          else
            match b64_value c with
            | Some vc =>
                let b1 := to_byte ((vb mod 16) * 16 + vc / 4) in
                if d =? pad then
                  match rest with [] => Ok [b0; b1] | _ => binascii_error (lit "Excess data after padding") end
                else
                  match b64_value d, b64_quads rest with
                  | Some vd, Ok bs => Ok (b0 :: b1 :: to_byte ((vc mod 4) * 64 + vd) :: bs)
                  | Some _, Raise e => Raise e
                  | None, _ => binascii_error (lit "Incorrect padding")
                  end
            | None => binascii_error (lit "Incorrect padding")
            end
      | _, _ => binascii_error (lit "Incorrect padding")
      end
  | _ => binascii_error (lit "Incorrect padding")
  end%N.

(** Characters outside the alphabet (the line breaks of the repository
    service, for one) are dropped before decoding. *)
Definition base64_decode (s : pystr) : outcome (list Byte.byte) :=
  b64_quads (filter (fun c => match b64_value c with
                              | Some _ => true
                              | None => N.eqb c pad
                              end) s).

Definition unicode_error {A} : outcome A :=
  Raise {| exc_type := UnicodeDecodeError;
           exc_str := lit "'utf-8' codec can't decode bytes";
           exc_response := None |}.

Definition is_cont (b : N) : bool := ((128 <=? b) && (b <=? 191))%N.

(** UTF-8 to code points: shortest form only, no surrogates, at most
    U+10FFFF. *)
Fixpoint utf8_points (bs : list N) : outcome pystr :=
  let cons_ok c rest :=
    match utf8_points rest with Ok s => Ok (c :: s) | Raise e => Raise e end in
  match bs with
  | [] => Ok []
  | b0 :: rest0 =>
      if b0 <? 128 then cons_ok b0 rest0
      else if (194 <=? b0) && (b0 <=? 223) then
        match rest0 with
        | b1 :: rest1 =>
            if is_cont b1 then cons_ok ((b0 - 192) * 64 + (b1 - 128)) rest1
            else unicode_error
        | _ => unicode_error
        end
      else if (224 <=? b0) && (b0 <=? 239) then
        match rest0 with
        | b1 :: b2 :: rest2 =>
            if is_cont b1 && is_cont b2
               && (negb (b0 =? 224) || (160 <=? b1))
               && (negb (b0 =? 237) || (b1 <=? 159))
            then cons_ok ((b0 - 224) * 4096 + (b1 - 128) * 64 + (b2 - 128)) rest2
            else unicode_error
        | _ => unicode_error
        end
      else if (240 <=? b0) && (b0 <=? 244) then
        match rest0 with
        | b1 :: b2 :: b3 :: rest3 =>
            if is_cont b1 && is_cont b2 && is_cont b3
               && (negb (b0 =? 240) || (144 <=? b1))
               && (negb (b0 =? 244) || (b1 <=? 143))
            then cons_ok ((b0 - 240) * 262144 + (b1 - 128) * 4096
                          + (b2 - 128) * 64 + (b3 - 128)) rest3
            else unicode_error
        | _ => unicode_error
        end
      else unicode_error
  end%N.

Definition utf8_decode (bs : list Byte.byte) : outcome pystr :=
  utf8_points (map Byte.to_N bs).

(** [urlparse] on URLs of the shape [scheme://netloc/path]. *)
Fixpoint after_scheme (s : pystr) : option pystr :=
  match s with
  | 58 :: 47 :: 47 :: rest => Some rest
  | _ :: s' => after_scheme s'
  | [] => None
  end%N.

Fixpoint until_slash (s : pystr) : pystr * pystr :=
  match s with
  | [] => ([], [])
  | c :: s' =>
      if N.eqb c slash then ([], s)
      else let (a, b) := until_slash s' in (c :: a, b)
  end.

Definition parse_url (u : pystr) : ParseResult :=
  match after_scheme u with
  | Some rest =>
      let (host, p) := until_slash rest in {| netloc := host; url_path := p |}
  | None => {| netloc := []; url_path := u |}
  end.

(** [respx]: a table from URL to response; a request outside the table
    raises. *)
Definition routes {B} (table : list (pystr * response B)) (u : pystr)
    : outcome (response B) :=
  match find (fun r => pystr_eqb u (fst r)) table with
  | Some r => Ok (snd r)
  | None => Raise {| exc_type := RequestError;
                     exc_str := lit "not mocked";
                     exc_response := None |}
  end.

Definition json_response {B} (sc : Z) (b : B) : response B :=
  {| status_code := sc; text := []; body_json := Ok b |}.

Definition text_response {B} (sc : Z) (t : pystr) : response B :=
  {| status_code := sc; text := t;
     body_json := Raise {| exc_type := JSONDecodeError;
                           exc_str := lit "Expecting value: line 1 column 1 (char 0)";
                           exc_response := None |} |}.

Definition empty_json : github_json :=
  {| default_branch := None; tree := None; content := None; encoding := None |}.

Definition repo_json (branch : pystr) : github_json :=
  {| default_branch := Some branch; tree := None; content := None; encoding := None |}.

Definition tree_json (t : list tree_item) : github_json :=
  {| default_branch := None; tree := Some t; content := None; encoding := None |}.

Definition blob_json (c e : pystr) : github_json :=
  {| default_branch := None; tree := None; content := Some c; encoding := Some e |}.

Definition world (gh : list (pystr * response github_json))
    (mi : list (pystr * response json)) (key : option pystr) : World :=
  {| urlparse := parse_url;
     github := fun _ u => routes gh u;
     mistral := fun _ u _ _ => routes mi u;
     MISTRAL_API_KEY := key;
     b64decode := base64_decode;
     decode_utf8 := utf8_decode;
     status_error_str := fun sc => lit "Server error " ++ str_of_Z sc |}.

Definition testrepo_url : pystr := lit "https://github.com/testuser/testrepo".
Definition testrepo_api : pystr := lit "https://api.github.com/repos/testuser/testrepo".
Definition testrepo_tree : pystr :=
  lit "https://api.github.com/repos/testuser/testrepo/git/trees/main?recursive=1".
Definition blob_sha1 : pystr :=
  lit "https://api.github.com/repos/testuser/testrepo/git/blobs/sha1".

Definition main_py : tree_item :=
  {| path := lit "main.py"; type := lit "blob"; url := blob_sha1 |}.

Definition test_request (u : pystr) : ReviewRequest :=
  {| assignment_description := lit "Project description";
     github_url_repo := u;
     candidate_level := lit "Middle" |}.

Definition testrepo_github (t : list tree_item) (blobs : list (pystr * response github_json))
    : list (pystr * response github_json) :=
  (testrepo_api, json_response 200 (repo_json (lit "main")))
  :: (testrepo_tree, json_response 200 (tree_json t))
  :: blobs.

Definition hello_blob : pystr * response github_json :=
  (blob_sha1, json_response 200
     (blob_json (lit "cHJpbnQoJ0hlbGxvLCBXb3JsZCEnKQ==") (lit "base64"))).

Definition review_envelope : json :=
  JDict [(lit "choices",
          JList [JDict [(lit "message",
                         JDict [(lit "content",
                                 JStr (lit "This is a test review from Mistral AI."))])]])].

(** [test_review_success] *)
Definition world_success : World :=
  world (testrepo_github [main_py] [hello_blob])
        [(api_url, json_response 200 review_envelope)]
        (Some (lit "test-key")).

(** [test_review_github_api_error] *)
Definition world_github_404 : World :=
  world [(lit "https://api.github.com/repos/testuser/nonexistentrepo",
          text_response 404 [])]
        [] (Some (lit "test-key")).

(** [test_review_mistral_api_error] *)
Definition world_mistral_500 : World :=
  world (testrepo_github [main_py] [hello_blob])
        [(api_url, text_response 500 (lit "Internal Server Error"))]
        (Some (lit "test-key")).

(** The repository of the tests, without a credential in the
    environment. *)
Definition world_no_key : World :=
  world (testrepo_github [main_py] [hello_blob])
        [(api_url, json_response 200 review_envelope)]
        None.

(** A file of 20001 characters, then a second entry. *)
Definition big_content : pystr := concat (repeat (lit "YWFh") 6667).

Definition readme : tree_item :=
  {| path := lit "README.md"; type := lit "blob";
     url := lit "https://api.github.com/repos/testuser/testrepo/git/blobs/sha2" |}.

Definition world_big : World :=
  world (testrepo_github [main_py; readme]
           [(blob_sha1, json_response 200 (blob_json big_content (lit "base64")))])
        [(api_url, json_response 200 review_envelope)]
        (Some (lit "test-key")).

(** A repository of 101 small source files. *)
Definition world_101 : World :=
  world (testrepo_github (repeat main_py 101) [hello_blob])
        [(api_url, json_response 200 review_envelope)]
        (Some (lit "test-key")).

(** A repository whose only blob cannot be fetched. *)
Definition world_blob_404 : World :=
  world (testrepo_github [main_py] [(blob_sha1, text_response 404 [])])
        [(api_url, json_response 200 review_envelope)]
        (Some (lit "test-key")).

(** A blob with encoding [base64] and no [content] key. *)
Definition world_no_content : World :=
  world (testrepo_github [main_py]
           [(blob_sha1, json_response 200
               {| default_branch := None; tree := None; content := None;
                  encoding := Some (lit "base64") |})])
        [(api_url, json_response 200 review_envelope)]
        (Some (lit "test-key")).

(** [test_review_github_api_error]: the repository that does not exist. *)
Definition nonexistent_url : pystr :=
  lit "https://github.com/testuser/nonexistentrepo".

(** A repository whose tree cannot be fetched. *)
Definition world_tree_404 : World :=
  world [(testrepo_api, json_response 200 (repo_json (lit "main")));
         (testrepo_tree, text_response 404 [])]
        [(api_url, json_response 200 review_envelope)]
        (Some (lit "test-key")).

(** A metadata answer with status 200 and a body that is not JSON. *)
Definition world_bad_metadata : World :=
  world [(testrepo_api, text_response 200 (lit "<html>"))]
        [(api_url, json_response 200 review_envelope)]
        (Some (lit "test-key")).

(** A repository with an empty tree. *)
Definition world_empty_tree : World :=
  world (testrepo_github [] [])
        [(api_url, json_response 200 review_envelope)]
        (Some (lit "test-key")).

(** A completion service that answers 200 with an empty object. *)
Definition world_bad_envelope : World :=
  world (testrepo_github [main_py] [hello_blob])
        [(api_url, json_response 200 (JDict []))]
        (Some (lit "test-key")).

(** An empty credential. *)
Definition world_empty_key : World :=
  world (testrepo_github [main_py] [hello_blob])
        [(api_url, json_response 200 review_envelope)]
        (Some []).

(** A source file whose blob cannot be fetched, followed by the file of
    the tests. *)
Definition missing_py : tree_item :=
  {| path := lit "missing.py"; type := lit "blob";
     url := lit "https://api.github.com/repos/testuser/testrepo/git/blobs/sha0" |}.

Definition world_bad_then_good : World :=
  world (testrepo_github [missing_py; main_py]
           [(url missing_py, text_response 404 []); hello_blob])
        [(api_url, json_response 200 review_envelope)]
        (Some (lit "test-key")).

(** A placeholder where an exception is expected. *)
Definition no_exception : exn :=
  {| exc_type := Exception; exc_str := []; exc_response := None |}.

(** A URL with the owner and no repository name. *)
Definition owner_only_url : pystr := lit "https://github.com/testuser".

End Mock.

(** * Properties *)

Unset Implicit Arguments.

#[local] Opaque max_code_length max_prompt_length.

(** ** Strings *)

Example strip_split_ex :
  split slash (strip slash (lit "/testuser/testrepo/")) =
  [lit "testuser"; lit "testrepo"].
Proof. reflexivity. Qed.

Example split_short_ex : split slash (strip slash (lit "/testuser//")) = [lit "testuser"].
Proof. reflexivity. Qed.

Example endswith_ex :
  endswith (lit "src/main.py") (lit ".py") = true /\
  endswith (lit "py") (lit ".py") = false /\
  endswith (lit "main.pyc") (lit ".py") = false.
Proof. repeat split. Qed.

Example contains_ex :
  contains (lit "xx HTTP error yy") (lit "HTTP error") = true /\
  contains (lit "HTTP erro") (lit "HTTP error") = false.
Proof. repeat split. Qed.

Example html_escape_ex :
  html_escape (lit "a<b && 'c'") = lit "a&lt;b &amp;&amp; &#x27;c&#x27;".
Proof. reflexivity. Qed.

Example str_of_Z_ex : str_of_Z 404 = lit "404".
Proof. reflexivity. Qed.

Lemma pystr_eqb_eq (a b : pystr) : pystr_eqb a b = true <-> a = b.
Proof.
  revert b; induction a as [|x a IH]; intros [|y b]; simpl; split;
    try congruence; try reflexivity.
  - intros H. apply andb_true_iff in H as [Hx Hab].
    apply N.eqb_eq in Hx. apply IH in Hab. congruence.
  - intros H. inversion H; subst. apply andb_true_iff. split.
    + apply N.eqb_refl.
    + now apply IH.
Qed.

Lemma pystr_eqb_refl (a : pystr) : pystr_eqb a a = true.
Proof. now apply pystr_eqb_eq. Qed.

Lemma pystr_eqb_neq (a b : pystr) : pystr_eqb a b = false <-> a <> b.
Proof.
  split.
  - intros H E. apply pystr_eqb_eq in E. congruence.
  - intros H. destruct (pystr_eqb a b) eqn:E; [|reflexivity].
    apply pystr_eqb_eq in E. contradiction.
Qed.

(** [endswith] is the suffix test. *)
Lemma endswith_spec (s suf : pystr) :
  endswith s suf = true <-> exists pre, s = pre ++ suf.
Proof.
  unfold endswith. split.
  - intros H. apply andb_true_iff in H as [_ H]. apply pystr_eqb_eq in H.
    remember (length s - length suf) as n eqn:Hn. clear Hn.
    exists (firstn n s). rewrite <- H. symmetry. apply firstn_skipn.
  - intros [pre ->]. rewrite length_app. apply andb_true_iff. split.
    + apply Nat.leb_le. lia.
    + apply pystr_eqb_eq.
      replace (length pre + length suf - length suf) with (length pre + 0) by lia.
      rewrite skipn_app. rewrite Nat.add_0_r, skipn_all.
      replace (length pre - length pre) with 0 by lia. reflexivity.
Qed.

Lemma last_app_cons {A} (l : list A) (x d : A) : last (l ++ [x]) d = x.
Proof. apply last_last. Qed.

(** A string that ends with a line break does not end with the
    truncation marker, whose last character is a full stop. *)
Lemma endswith_nl_marker (s : pystr) :
  endswith (s ++ nl) code_truncated = false.
Proof.
  destruct (endswith (s ++ nl) code_truncated) eqn:E; [|reflexivity].
  apply endswith_spec in E as [pre E].
  assert (H : last (s ++ nl) 0%N = last (pre ++ code_truncated) 0%N) by now rewrite E.
  unfold nl in H. rewrite last_last in H.
  change code_truncated with
    ((nl ++ nl ++ lit "// Code truncated due to size limitations") ++ [46%N]) in H.
  rewrite app_assoc, last_last in H. discriminate.
Qed.

(** ** One blob *)

Section Blob.

Variable W : World.

Ltac run :=
  unfold fetch_blob, try_except, bind, client_get, lift, log, ret; simpl.

(** Every blob either decodes or fails in one of the listed ways. *)
Lemma blob_decodes_or_fails (reqs : list request) (item : tree_item) :
  blob_failure W reqs item \/ exists fc, blob_decodes W reqs item fc.
Proof.
  destruct (github W reqs (url item)) as [r|e] eqn:Hg.
  2:{ left. eapply fetch_raises; eauto. }
  destruct (Z.eq_dec (status_code r) 200) as [Hs|Hs].
  2:{ left. eapply fetch_not_200; eauto. }
  destruct (body_json r) as [d|e] eqn:Hb.
  2:{ left. eapply body_not_json; eauto. }
  destruct (pystr_eqb (from_option [] (encoding d)) (lit "base64")) eqn:He.
  2:{ left. apply pystr_eqb_neq in He. eapply unknown_encoding; eauto. }
  apply pystr_eqb_eq in He.
  destruct (b64decode W (from_option [] (content d))) as [raw|e] eqn:Hd.
  2:{ left. eapply base64_failure; eauto. }
  destruct (decode_utf8 W raw) as [fc|e] eqn:Hu.
  2:{ left. eapply utf8_failure; eauto. }
  right. exists fc, r, d, raw. repeat split; assumption.
Qed.

(** A blob that decodes is appended (lines 111-116); nothing is logged. *)
Lemma fetch_blob_decodes (item : tree_item) (st : loop_state) (s : effects)
    (fc : pystr) :
  blob_decodes W (requests s) item fc ->
  fetch_blob W item st s =
    (Ok (append_file st (path item) fc), sent s (GET (url item))).
Proof.
  intros (r & d & raw & Hg & Hs & Hb & He & Hd & Hu).
  run. rewrite Hg, Hs. simpl. rewrite Hb, He. simpl. rewrite Hd, Hu.
  reflexivity.
Qed.

(** A per-file failure leaves the loop variables as they are, after a
    warning or an error in the log. *)
Lemma fetch_blob_fails (item : tree_item) (st : loop_state) (s : effects) :
  blob_failure W (requests s) item ->
  exists l msg,
    (l = WARNING \/ l = ERROR) /\
    fetch_blob W item st s =
      (Ok (Next st), logged (sent s (GET (url item))) l msg).
Proof.
  intros [e Hg | r Hg Hs | r e Hg Hs Hb | r d Hg Hs Hb He
         | r d e Hg Hs Hb He Hd | r d raw e Hg Hs Hb He Hd Hu]; run; rewrite Hg.
  - eexists ERROR, _. split; [auto|reflexivity].
  - apply Z.eqb_neq in Hs. rewrite Hs. simpl.
    eexists ERROR, _. split; [auto|reflexivity].
  - rewrite Hs. simpl. rewrite Hb.
    eexists ERROR, _. split; [auto|reflexivity].
  - rewrite Hs. simpl. rewrite Hb. apply pystr_eqb_neq in He. rewrite He. simpl.
    eexists WARNING, _. split; [auto|reflexivity].
  - rewrite Hs. simpl. rewrite Hb, He. simpl. rewrite Hd. simpl.
    destruct (exc_class_eqb (exc_type e) UnicodeDecodeError); simpl.
    + eexists WARNING, _. split; [auto|reflexivity].
    + eexists ERROR, _. split; [auto|reflexivity].
  - rewrite Hs. simpl. rewrite Hb, He. simpl. rewrite Hd, Hu. simpl.
    destruct (exc_class_eqb (exc_type e) UnicodeDecodeError); simpl.
    + eexists WARNING, _. split; [auto|reflexivity].
    + eexists ERROR, _. split; [auto|reflexivity].
Qed.

End Blob.

(** ** One iteration of the loop *)

Section Loop.

Variable W : World.

Lemma eligible_true (item : tree_item) :
  eligible item = true ->
  pystr_eqb (type item) (lit "blob") = true /\
  existsb (endswith (path item)) allowed_extensions = true.
Proof. intros H. now apply andb_true_iff in H. Qed.

Lemma collect_loop_cons (item : tree_item) (rest : list tree_item)
    (st : loop_state) :
  collect_loop W (item :: rest) st =
  if stop_condition st then ret st
  else
    let st := list_path st (path item) in
    if pystr_eqb (type item) (lit "blob") then
      let p := path item in
      if negb (existsb (endswith p) allowed_extensions) then
        log INFO (lit "Skipping file with unsuitable extension: " ++ p) ;;;
        collect_loop W rest st
      else
        log INFO (lit "Processing file: " ++ p) ;;;
        c <- fetch_blob W item st ;;
        match c with
        | Next st' => collect_loop W rest st'
        | Break st' => ret st'
        end
    else collect_loop W rest st.
Proof. reflexivity. Qed.

Lemma loop_stop (item : tree_item) (rest : list tree_item) (st : loop_state)
    (s : effects) :
  stop_condition st = true ->
  collect_loop W (item :: rest) st s = (Ok st, s).
Proof. intros H. simpl. now rewrite H. Qed.

Lemma loop_skip (item : tree_item) (rest : list tree_item) (st : loop_state)
    (s : effects) :
  stop_condition st = false ->
  eligible item = false ->
  exists s1, requests s1 = requests s /\
    collect_loop W (item :: rest) st s =
    collect_loop W rest (list_path st (path item)) s1.
Proof.
  intros Hstop Hel. rewrite collect_loop_cons, Hstop. unfold eligible in Hel.
  cbv zeta.
  destruct (pystr_eqb (type item) (lit "blob")).
  - rewrite andb_true_l in Hel. rewrite Hel.
    exists (logged s INFO
              (lit "Skipping file with unsuitable extension: " ++ path item)).
    split; reflexivity.
  - exists s. split; reflexivity.
Qed.

Lemma loop_failure (item : tree_item) (rest : list tree_item) (st : loop_state)
    (s : effects) :
  stop_condition st = false ->
  eligible item = true ->
  blob_failure W (requests s) item ->
  exists l msg,
    (l = WARNING \/ l = ERROR) /\
    collect_loop W (item :: rest) st s =
    collect_loop W rest (list_path st (path item)) (logged (fetched s item) l msg).
Proof.
  intros Hstop Hel Hfail. apply eligible_true in Hel as [Hb He].
  destruct (fetch_blob_fails W item (list_path st (path item))
              (logged s INFO (lit "Processing file: " ++ path item))
              Hfail) as (l & msg & Hl & Hf).
  exists l, msg. split; [exact Hl|].
  rewrite collect_loop_cons, Hstop. cbv zeta. rewrite Hb, He.
  unfold negb, bind, log. rewrite Hf. reflexivity.
Qed.

Lemma loop_decoded (item : tree_item) (rest : list tree_item) (st : loop_state)
    (s : effects) (fc : pystr) :
  stop_condition st = false ->
  eligible item = true ->
  blob_decodes W (requests s) item fc ->
  collect_loop W (item :: rest) st s =
  match append_file (list_path st (path item)) (path item) fc with
  | Next st' => collect_loop W rest st' (fetched s item)
  | Break st' => (Ok st', fetched s item)
  end.
Proof.
  intros Hstop Hel Hdec. apply eligible_true in Hel as [Hb He].
  pose proof (fetch_blob_decodes W item (list_path st (path item))
                (logged s INFO (lit "Processing file: " ++ path item))
                fc Hdec) as Hf.
  rewrite collect_loop_cons, Hstop. cbv zeta. rewrite Hb, He.
  unfold negb, bind, log. rewrite Hf.
  destruct (append_file (list_path st (path item)) (path item) fc); reflexivity.
Qed.

Lemma append_file_fits (st : loop_state) (p fc : pystr) :
  length (code st ++ file_entry p fc) <= max_code_length ->
  append_file (list_path st p) p fc = Next (appended st p fc).
Proof.
  intros H. unfold append_file. simpl.
  destruct (max_code_length <? _) eqn:E; [|reflexivity].
  apply Nat.ltb_lt in E. lia.
Qed.

Lemma append_file_cut (st : loop_state) (p fc : pystr) :
  max_code_length < length (code st ++ file_entry p fc) ->
  append_file (list_path st p) p fc = Break (truncated st p fc).
Proof.
  intros H. unfold append_file. simpl.
  apply Nat.ltb_lt in H. now rewrite H.
Qed.

(** *** Induction on a run of the loop

    The loop always ends normally; a relation between the start and the
    end of the loop holds if it holds along the six ways an iteration
    can go. *)

Variable P : list tree_item -> loop_state -> effects -> loop_state -> effects -> Prop.

Hypothesis P_nil : forall st s, P [] st s st s.

Hypothesis P_stop : forall item rest st s,
  stop_condition st = true -> P (item :: rest) st s st s.

Hypothesis P_skip : forall item rest st s s1 st' s',
  stop_condition st = false -> eligible item = false ->
  requests s1 = requests s ->
  P rest (list_path st (path item)) s1 st' s' ->
  P (item :: rest) st s st' s'.

Hypothesis P_fail : forall item rest st s s1 st' s',
  stop_condition st = false -> eligible item = true ->
  blob_failure W (requests s) item ->
  requests s1 = requests s ++ [GET (url item)] ->
  P rest (list_path st (path item)) s1 st' s' ->
  P (item :: rest) st s st' s'.

Hypothesis P_fits : forall item rest st s s1 st' s' fc,
  stop_condition st = false -> eligible item = true ->
  blob_decodes W (requests s) item fc ->
  length (code st ++ file_entry (path item) fc) <= max_code_length ->
  requests s1 = requests s ++ [GET (url item)] ->
  P rest (appended st (path item) fc) s1 st' s' ->
  P (item :: rest) st s st' s'.

Hypothesis P_cut : forall item rest st s s1 fc,
  stop_condition st = false -> eligible item = true ->
  blob_decodes W (requests s) item fc ->
  max_code_length < length (code st ++ file_entry (path item) fc) ->
  requests s1 = requests s ++ [GET (url item)] ->
  P (item :: rest) st s (truncated st (path item) fc) s1.

Lemma collect_loop_run (tree : list tree_item) :
  forall st s, exists st' s',
    collect_loop W tree st s = (Ok st', s') /\ P tree st s st' s'.
Proof.
  induction tree as [|item rest IH]; intros st s.
  - exists st, s. split; [reflexivity|apply P_nil].
  - destruct (stop_condition st) eqn:Hstop.
    { exists st, s. split; [now apply loop_stop|now apply P_stop]. }
    destruct (eligible item) eqn:Hel.
    2:{ destruct (loop_skip item rest st s Hstop Hel) as (s1 & Hr & Heq).
        destruct (IH (list_path st (path item)) s1) as (st' & s' & Hrun & HP).
        exists st', s'. split; [congruence|]. eapply P_skip; eauto. }
    destruct (blob_decodes_or_fails W (requests s) item) as [Hfail|[fc Hdec]].
    { destruct (loop_failure item rest st s Hstop Hel Hfail) as (l & msg & _ & Heq).
      destruct (IH (list_path st (path item)) (logged (fetched s item) l msg))
        as (st' & s' & Hrun & HP).
      exists st', s'. split; [congruence|].
      apply P_fail with (s1 := logged (fetched s item) l msg); auto. }
    pose proof (loop_decoded item rest st s fc Hstop Hel Hdec) as Heq.
    destruct (Nat.le_gt_cases (length (code st ++ file_entry (path item) fc))
                max_code_length) as [Hfit|Hcut].
    + rewrite (append_file_fits _ _ _ Hfit) in Heq.
      destruct (IH (appended st (path item) fc) (fetched s item))
        as (st' & s' & Hrun & HP).
      exists st', s'. split; [congruence|].
      apply P_fits with (s1 := fetched s item) (fc := fc); auto.
    + rewrite (append_file_cut _ _ _ Hcut) in Heq.
      exists (truncated st (path item) fc), (fetched s item).
      split; [exact Heq|]. apply P_cut; auto.
Qed.

End Loop.

(** ** What a run of the loop preserves *)

Section LoopProperties.

Variable W : World.


Lemma stop_condition_true (st : loop_state) :
  stop_condition st = true ->
  max_files <= file_count st \/ max_code_length <= length (code st).
Proof.
  unfold stop_condition. intros H. apply orb_true_iff in H as [H|H];
    apply Nat.leb_le in H; auto.
Qed.

(** The loop ends normally whatever the world answers. *)
Lemma collect_loop_total (tree : list tree_item) (st : loop_state) (s : effects) :
  exists st' s', collect_loop W tree st s = (Ok st', s').
Proof.
  destruct (collect_loop_run W (fun _ _ _ _ _ => True)) with (tree := tree)
    (st := st) (s := s) as (st' & s' & H & _); auto.
  exists st', s'. exact H.
Qed.

(** A relation that holds along the six ways of an iteration holds of
    every run. *)
Lemma collect_loop_inv
    (P : list tree_item -> loop_state -> effects -> loop_state -> effects -> Prop) :
  (forall st s, P [] st s st s) ->
  (forall item rest st s,
     stop_condition st = true -> P (item :: rest) st s st s) ->
  (forall item rest st s s1 st' s',
     stop_condition st = false -> eligible item = false ->
     requests s1 = requests s ->
     P rest (list_path st (path item)) s1 st' s' ->
     P (item :: rest) st s st' s') ->
  (forall item rest st s s1 st' s',
     stop_condition st = false -> eligible item = true ->
     blob_failure W (requests s) item ->
     requests s1 = requests s ++ [GET (url item)] ->
     P rest (list_path st (path item)) s1 st' s' ->
     P (item :: rest) st s st' s') ->
  (forall item rest st s s1 st' s' fc,
     stop_condition st = false -> eligible item = true ->
     blob_decodes W (requests s) item fc ->
     length (code st ++ file_entry (path item) fc) <= max_code_length ->
     requests s1 = requests s ++ [GET (url item)] ->
     P rest (appended st (path item) fc) s1 st' s' ->
     P (item :: rest) st s st' s') ->
  (forall item rest st s s1 fc,
     stop_condition st = false -> eligible item = true ->
     blob_decodes W (requests s) item fc ->
     max_code_length < length (code st ++ file_entry (path item) fc) ->
     requests s1 = requests s ++ [GET (url item)] ->
     P (item :: rest) st s (truncated st (path item) fc) s1) ->
  forall tree st s st' s',
    collect_loop W tree st s = (Ok st', s') -> P tree st s st' s'.
Proof.
  intros H1 H2 H3 H4 H5 H6 tree st s st' s' Hrun.
  destruct (collect_loop_run W P H1 H2 H3 H4 H5 H6 tree st s)
    as (st2 & s2 & Hrun2 & HP).
  rewrite Hrun in Hrun2. inversion Hrun2; subst. exact HP.
Qed.

(** The manifest lists the entries visited before the loop stopped: a
    prefix of the tree, which is the whole tree unless a cap stopped
    the loop. *)
Lemma loop_manifest (tree : list tree_item) (st : loop_state) (s : effects)
    (st' : loop_state) (s' : effects) :
  collect_loop W tree st s = (Ok st', s') ->
  exists k,
    k <= length tree /\
    file_list st' = file_list st ++ manifest_lines (firstn k tree) /\
    (k = length tree \/ stop_condition st' = true).
Proof.
  revert tree st s st' s'.
  apply (collect_loop_inv (fun tree st s st' s' =>
    exists k, k <= length tree /\
      file_list st' = file_list st ++ manifest_lines (firstn k tree) /\
      (k = length tree \/ stop_condition st' = true))).
  - intros st s. exists 0. simpl. rewrite app_nil_r. auto.
  - intros item rest st s Hstop. exists 0. simpl. rewrite app_nil_r.
    repeat split; [lia|auto].
  - intros item rest st s s1 st' s' _ _ _ (k & Hk & Hl & Hend).
    exists (S k). simpl. repeat split; [lia| |destruct Hend; auto].
    rewrite Hl. simpl. unfold manifest_lines. simpl. now rewrite <- !app_assoc.
  - intros item rest st s s1 st' s' _ _ _ _ (k & Hk & Hl & Hend).
    exists (S k). simpl. repeat split; [lia| |destruct Hend; auto].
    rewrite Hl. simpl. unfold manifest_lines. simpl. now rewrite <- !app_assoc.
  - intros item rest st s s1 st' s' fc _ _ _ _ _ (k & Hk & Hl & Hend).
    exists (S k). simpl. repeat split; [lia| |destruct Hend; auto].
    rewrite Hl. simpl. unfold manifest_lines. simpl. now rewrite <- !app_assoc.
  - intros item rest st s s1 fc _ _ _ Hcut _.
    exists 1. simpl. repeat split; [lia| |].
    + unfold manifest_lines. simpl. now rewrite app_nil_r.
    + right. unfold stop_condition. simpl. apply orb_true_iff. right.
      apply Nat.leb_le. rewrite length_app, length_firstn. lia.
Qed.






End LoopProperties.

(** ** The collector *)

Section Collector.

Variable W : World.

Lemma collect_unfold (repo_url : pystr) :
  collect_code_from_github_repo W repo_url =
  if negb (pystr_eqb (netloc (urlparse W repo_url)) (lit "github.com")) then
    raise ValueError (lit "Invalid domain in GitHub repository URL.")
  else if length (path_parts W repo_url) <? 2 then
    raise ValueError (lit "Invalid path in GitHub repository URL.")
  else
    response <- client_get W (metadata_url W repo_url) ;;
    if negb (status_code response =? 200)%Z then
      log ERROR (lit "Error fetching repository data: "
                 ++ str_of_Z (status_code response)) ;;;
      raise ValueError access_rights_message
    else
      repo_data <- lift (body_json response) ;;
      response <- client_get W (branch_tree_url W repo_url repo_data) ;;
      if negb (status_code response =? 200)%Z then
        log ERROR (lit "Error fetching repository tree: "
                   ++ str_of_Z (status_code response)) ;;;
        raise ValueError (lit "Failed to retrieve GitHub repository content.")
      else
        tree_data <- lift (body_json response) ;;
        st <- collect_loop W (from_option [] (tree tree_data)) loop_init ;;
        ret (code st ++ file_list st).
Proof. reflexivity. Qed.

Lemma well_formed_url_tests (repo_url : pystr) :
  well_formed_url W repo_url ->
  negb (pystr_eqb (netloc (urlparse W repo_url)) (lit "github.com")) = false /\
  (length (path_parts W repo_url) <? 2) = false.
Proof.
  intros [Hn Hp]. split.
  - rewrite Hn, pystr_eqb_refl. reflexivity.
  - apply Nat.ltb_ge. exact Hp.
Qed.

(** With a well-formed URL and both fetches successful, the collector
    returns what the loop leaves: the corpus, then the manifest. *)
Lemma collect_run (repo_url : pystr) (s : effects) (d1 d2 : github_json) :
  well_formed_url W repo_url ->
  fetch_succeeds W (requests s) (metadata_url W repo_url) d1 ->
  fetch_succeeds W (requests s ++ [GET (metadata_url W repo_url)])
    (branch_tree_url W repo_url d1) d2 ->
  exists st s',
    collect_loop W (from_option [] (tree d2)) loop_init
      (sent (sent s (GET (metadata_url W repo_url)))
            (GET (branch_tree_url W repo_url d1))) = (Ok st, s') /\
    collect_code_from_github_repo W repo_url s = (Ok (code st ++ file_list st), s').
Proof.
  intros Hwf (r1 & Hg1 & Hs1 & Hb1) (r2 & Hg2 & Hs2 & Hb2).
  destruct (collect_loop_total W (from_option [] (tree d2)) loop_init
              (sent (sent s (GET (metadata_url W repo_url)))
                    (GET (branch_tree_url W repo_url d1)))) as (st & s' & Hrun).
  exists st, s'. split; [exact Hrun|].
  apply well_formed_url_tests in Hwf as [Hn Hp].
  rewrite collect_unfold, Hn, Hp.
  unfold bind, client_get, lift. rewrite Hg1, Hs1. cbn [Z.eqb Pos.eqb negb].
  rewrite Hb1. cbn [sent requests]. rewrite Hg2, Hs2. cbn [Z.eqb Pos.eqb negb].
  rewrite Hb2. unfold sent in *. cbn [requests logs] in *. rewrite Hrun.
  reflexivity.
Qed.

(** Conversely, a result of the collector comes from such a run. *)
Lemma collect_ok_inv (repo_url : pystr) (s : effects) (out : pystr) (s' : effects) :
  collect_code_from_github_repo W repo_url s = (Ok out, s') ->
  well_formed_url W repo_url /\
  exists d1 d2 st,
    fetch_succeeds W (requests s) (metadata_url W repo_url) d1 /\
    fetch_succeeds W (requests s ++ [GET (metadata_url W repo_url)])
      (branch_tree_url W repo_url d1) d2 /\
    collect_loop W (from_option [] (tree d2)) loop_init
      (sent (sent s (GET (metadata_url W repo_url)))
            (GET (branch_tree_url W repo_url d1))) = (Ok st, s') /\
    out = code st ++ file_list st.
Proof.
  rewrite collect_unfold. unfold well_formed_url.
  destruct (pystr_eqb (netloc (urlparse W repo_url)) (lit "github.com")) eqn:Hn;
    [|discriminate].
  apply pystr_eqb_eq in Hn. cbn [negb].
  destruct (length (path_parts W repo_url) <? 2) eqn:Hp; [discriminate|].
  apply Nat.ltb_ge in Hp.
  unfold bind, client_get, lift, log, raise.
  destruct (github W (requests s) (metadata_url W repo_url)) as [r1|e] eqn:Hg1;
    [|discriminate].
  destruct (status_code r1 =? 200)%Z eqn:Hs1; cbn [negb]; [|discriminate].
  apply Z.eqb_eq in Hs1.
  destruct (body_json r1) as [d1|e] eqn:Hb1; [|discriminate].
  cbn [sent requests].
  destruct (github W (requests s ++ [GET (metadata_url W repo_url)])
              (branch_tree_url W repo_url d1)) as [r2|e] eqn:Hg2; [|discriminate].
  destruct (status_code r2 =? 200)%Z eqn:Hs2; cbn [negb]; [|discriminate].
  apply Z.eqb_eq in Hs2.
  destruct (body_json r2) as [d2|e] eqn:Hb2; [|discriminate].
  destruct (collect_loop W (from_option [] (tree d2)) loop_init _)
    as [[st|e] s2] eqn:Hrun; [|discriminate].
  unfold ret. intros H. inversion H; subst.
  split; [auto|]. exists d1, d2, st. repeat split; auto.
  - exists r1. auto.
  - exists r2. auto.
Qed.

(** A metadata fetch that is answered with a status other than 200:
    one GET, one error in the log, and the access-rights [ValueError]. *)
Lemma collect_metadata_refused (repo_url : pystr) (s : effects)
    (r : response github_json) :
  well_formed_url W repo_url ->
  github W (requests s) (metadata_url W repo_url) = Ok r ->
  status_code r <> 200%Z ->
  collect_code_from_github_repo W repo_url s =
  (Raise {| exc_type := ValueError; exc_str := access_rights_message;
            exc_response := None |},
   logged (sent s (GET (metadata_url W repo_url))) ERROR
     (lit "Error fetching repository data: " ++ str_of_Z (status_code r))).
Proof.
  intros Hwf Hg Hs. apply well_formed_url_tests in Hwf as [Hn Hp].
  rewrite collect_unfold, Hn, Hp. unfold bind, client_get. rewrite Hg.
  apply Z.eqb_neq in Hs. rewrite Hs. reflexivity.
Qed.

End Collector.

(** ** The handler *)

Section Handler.

Variable W : World.

Lemma review_unfold (review_request : ReviewRequest) :
  review W review_request =
  try_except
    (project_code <- collect_code_from_github_repo W (github_url_repo review_request) ;;
     log INFO (lit "Sending request to Mistral AI for review.") ;;;
     review_text <- get_mistral_review W
       (build_prompt (candidate_level review_request)
          (assignment_description review_request) (html_escape project_code)) ;;
     ret (Review review_text))
    [(ValueError, fun ve => ret (HTTPException 400 (exc_str ve)));
     (HTTPStatusError, fun he =>
        log ERROR (lit "Error accessing GitHub: " ++ exc_str he) ;;;
        ret (HTTPException 400 access_rights_message));
     (Exception, fun e =>
        log ERROR (lit "Internal server error: " ++ exc_str e) ;;;
        if contains (exc_str e) (lit "HTTP error when accessing Mistral AI API")
        then ret (HTTPException 500 mistral_http_error)
        else ret (HTTPException 500 internal_error_message))].
Proof. reflexivity. Qed.

(** Without a credential the review client raises at once: no request,
    no log. *)
Lemma get_mistral_review_no_key (prompt : pystr) (s : effects) :
  MISTRAL_API_KEY W = None ->
  get_mistral_review W prompt s =
  (Raise {| exc_type := Exception;
            exc_str := lit "Mistral AI API key not found in environment variables.";
            exc_response := None |}, s).
Proof. intros H. unfold get_mistral_review. rewrite H. reflexivity. Qed.

(** A POST answered with a status outside 200-299: the distinguished
    exception, after one POST and one error in the log. *)
Lemma get_mistral_review_http_error (prompt key : pystr) (s : effects)
    (r : response json) :
  MISTRAL_API_KEY W = Some key ->
  key <> [] ->
  mistral W (requests s) api_url (lit "Bearer " ++ key) prompt = Ok r ->
  (status_code r < 200 \/ 299 < status_code r)%Z ->
  exists s',
    get_mistral_review W prompt s =
    (Raise {| exc_type := Exception; exc_str := mistral_http_error;
              exc_response := None |}, s') /\
    requests s' = requests s ++ [POST api_url (lit "Bearer " ++ key) prompt].
Proof.
  intros Hkey Hne Hm Hst. unfold get_mistral_review. rewrite Hkey.
  destruct key as [|c key]; [contradiction|].
  unfold try_except, bind, client_post. rewrite Hm.
  unfold raise_for_status.
  assert (Hrange : (200 <=? status_code r)%Z && (status_code r <=? 299)%Z = false).
  { apply andb_false_iff. destruct Hst as [H|H]; [left|right].
    - apply Z.leb_gt. exact H.
    - apply Z.leb_gt. exact H. }
  rewrite Hrange. cbn [find fst snd isinstance issubclass exc_type exc_class_eqb].
  eexists. split; reflexivity.
Qed.

End Handler.


(** ** The requests of a call *)

Section Requests.

Variable W : World.

Lemma only_sends_nothing {A} (Q : request -> Prop) (m : M A) :
  (forall s, snd (m s) = s \/ exists l msg, snd (m s) = logged s l msg) ->
  only_sends Q m.
Proof.
  intros H s. exists []. rewrite app_nil_r. split; [|constructor].
  destruct (H s) as [-> | (l & msg & ->)]; reflexivity.
Qed.

Lemma only_sends_ret {A} (Q : request -> Prop) (a : A) : only_sends Q (ret a).
Proof. apply only_sends_nothing. intros s. now left. Qed.

Lemma only_sends_raise {A} (Q : request -> Prop) (c : exc_class) (msg : pystr) :
  only_sends Q (@raise A c msg).
Proof. apply only_sends_nothing. intros s. now left. Qed.

Lemma only_sends_lift {A} (Q : request -> Prop) (o : outcome A) :
  only_sends Q (lift o).
Proof. apply only_sends_nothing. intros s. now left. Qed.

Lemma only_sends_log (Q : request -> Prop) (l : level) (msg : pystr) :
  only_sends Q (log l msg).
Proof. apply only_sends_nothing. intros s. right. now exists l, msg. Qed.

Lemma only_sends_bind {A B} (Q : request -> Prop) (m : M A) (k : A -> M B) :
  only_sends Q m -> (forall a, only_sends Q (k a)) -> only_sends Q (bind m k).
Proof.
  intros Hm Hk s. unfold bind. destruct (Hm s) as (l1 & H1 & F1).
  destruct (m s) as [[a|e] s1]; cbn [snd] in *.
  - destruct (Hk a s1) as (l2 & H2 & F2). exists (l1 ++ l2).
    rewrite H2, H1, app_assoc. split; [reflexivity|]. apply Forall_app. auto.
  - exists l1. auto.
Qed.

Lemma only_sends_try_except {A} (Q : request -> Prop) (body : M A)
    (handlers : list (exc_class * (exn -> M A))) :
  only_sends Q body ->
  Forall (fun h => forall e, only_sends Q (snd h e)) handlers ->
  only_sends Q (try_except body handlers).
Proof.
  intros Hb Hh s. unfold try_except. destruct (Hb s) as (l1 & H1 & F1).
  destruct (body s) as [[a|e] s1]; cbn [snd] in *.
  - exists l1. auto.
  - destruct (find (fun h => isinstance e (fst h)) handlers) as [h|] eqn:Hf.
    + apply find_some in Hf as [Hin _].
      rewrite Forall_forall in Hh.
      destruct (Hh h Hin e s1) as (l2 & H2 & F2). exists (l1 ++ l2).
      rewrite H2, H1, app_assoc. split; [reflexivity|]. apply Forall_app. auto.
    + exists l1. auto.
Qed.

Lemma only_sends_client_get (Q : request -> Prop) (u : pystr) :
  Q (GET u) -> only_sends Q (client_get W u).
Proof. intros H s. exists [GET u]. split; [reflexivity|]. now constructor. Qed.


Lemma only_sends_raise_for_status {B} (Q : request -> Prop) (r : response B) :
  only_sends Q (raise_for_status W r).
Proof.
  unfold raise_for_status.
  destruct ((200 <=? status_code r)%Z && (status_code r <=? 299)%Z).
  - apply only_sends_ret.
  - apply only_sends_nothing. intros s. now left.
Qed.

Lemma only_sends_dict_get (Q : request -> Prop) (j : json) (k : pystr) :
  only_sends Q (dict_get j k).
Proof.
  destruct j; first [apply only_sends_ret | apply only_sends_raise].
Qed.

Lemma only_sends_first_item (Q : request -> Prop) (j : json) :
  only_sends Q (first_item j).
Proof.
  destruct j as [| | | |[|x l]|]; first [apply only_sends_ret | apply only_sends_raise].
Qed.

(** One step of the analysis of a computation built from the
    combinators. *)
Ltac sends_step :=
  match goal with
  | |- only_sends _ (bind _ _) => apply only_sends_bind; [|intros ?]
  | |- only_sends _ (try_except _ _) =>
      apply only_sends_try_except; [|repeat constructor; cbn [snd]; intros ?]
  | |- only_sends _ (ret _) => apply only_sends_ret
  | |- only_sends _ (raise _ _) => apply only_sends_raise
  | |- only_sends _ (raise_KeyError _) => apply only_sends_raise
  | |- only_sends _ (lift _) => apply only_sends_lift
  | |- only_sends _ (log _ _) => apply only_sends_log
  | |- only_sends _ (dict_get _ _) => apply only_sends_dict_get
  | |- only_sends _ (first_item _) => apply only_sends_first_item
  | |- only_sends _ (raise_for_status _ _) => apply only_sends_raise_for_status
  | |- only_sends _ (if ?b then _ else _) => destruct b
  | |- only_sends _ (match ?x with _ => _ end) => destruct x
  end.

Lemma only_sends_fetch_blob (item : tree_item) (st : loop_state) :
  only_sends (fun r => is_GET r = true) (fetch_blob W item st).
Proof.
  unfold fetch_blob. cbv zeta.
  repeat first [sends_step | now apply only_sends_client_get].
Qed.

Lemma only_sends_collect_loop (tree : list tree_item) :
  forall st, only_sends (fun r => is_GET r = true) (collect_loop W tree st).
Proof.
  induction tree as [|item rest IH]; intros st.
  - apply only_sends_ret.
  - rewrite collect_loop_cons. cbv zeta.
    repeat first [apply IH | apply only_sends_fetch_blob | sends_step].
Qed.

(** The collector only sends GET requests. *)
Lemma only_sends_collect (repo_url : pystr) :
  only_sends (fun r => is_GET r = true) (collect_code_from_github_repo W repo_url).
Proof.
  rewrite collect_unfold.
  repeat first [apply only_sends_collect_loop
               | now apply only_sends_client_get | sends_step].
Qed.

Lemma only_sends_extract_review_text (Q : request -> Prop) (response_json : json) :
  only_sends Q (extract_review_text response_json).
Proof. unfold extract_review_text. repeat sends_step. Qed.




End Requests.

(** ** Runs of the loop, end to end *)

Section Runs.

Variable W : World.

(** The fetch of a blob never raises, and it leaves the loop only with
    a corpus at the cap. *)
Lemma fetch_blob_outcome (item : tree_item) (st : loop_state) (s : effects) :
  exists c s',
    fetch_blob W item st s = (Ok c, s') /\
    match c with
    | Next _ => True
    | Break st' => stop_condition st' = true
    end.
Proof.
  destruct (blob_decodes_or_fails W (requests s) item) as [Hfail|[fc Hdec]].
  - destruct (fetch_blob_fails W item st s Hfail) as (l & msg & _ & Hf).
    exists (Next st), (logged (sent s (GET (url item))) l msg). auto.
  - exists (append_file st (path item) fc), (sent s (GET (url item))).
    split; [now apply fetch_blob_decodes|].
    unfold append_file.
    destruct (max_code_length <? length (code st ++ file_entry (path item) fc))
      eqn:E; [|exact I].
    apply Nat.ltb_lt in E. unfold stop_condition. cbn [code file_count].
    apply orb_true_iff. right. apply Nat.leb_le.
    rewrite length_app, length_firstn. lia.
Qed.

(** A run that ends below both caps has visited every entry, so the
    loop over a longer tree goes on from where that run ended. *)
Lemma collect_loop_app (before after : list tree_item) :
  forall st s st' s',
    collect_loop W before st s = (Ok st', s') ->
    stop_condition st' = false ->
    collect_loop W (before ++ after) st s = collect_loop W after st' s'.
Proof.
  induction before as [|item before IH]; intros st s st' s' Hrun Hgo.
  - cbn [collect_loop ret] in Hrun. inversion Hrun; subst. reflexivity.
  - cbn [app]. rewrite collect_loop_cons in Hrun. rewrite collect_loop_cons.
    destruct (stop_condition st) eqn:Hstop.
    { unfold ret in Hrun. inversion Hrun; subst. congruence. }
    cbv zeta in Hrun. cbv zeta.
    destruct (pystr_eqb (type item) (lit "blob")); [|now apply IH].
    destruct (negb (existsb (endswith (path item)) allowed_extensions)).
    { unfold bind, log in Hrun. unfold bind, log. now apply IH. }
    unfold bind, log in Hrun. unfold bind, log.
    destruct (fetch_blob_outcome item (list_path st (path item))
                (logged s INFO (lit "Processing file: " ++ path item)))
      as (c & s1 & Hf & Hc).
    rewrite Hf in Hrun. rewrite Hf. destruct c as [st1|st1].
    + now apply IH.
    + unfold ret in Hrun. inversion Hrun; subst. congruence.
Qed.

(** Such a run has listed every entry. *)
Lemma loop_lists_all (tree : list tree_item) (st : loop_state) (s : effects)
    (st' : loop_state) (s' : effects) :
  collect_loop W tree st s = (Ok st', s') ->
  stop_condition st' = false ->
  file_list st' = file_list st ++ manifest_lines tree.
Proof.
  intros Hrun Hgo.
  destruct (loop_manifest W tree st s st' s' Hrun) as (k & _ & Hl & [->|Hs]).
  - now rewrite firstn_all in Hl.
  - congruence.
Qed.

(** An entry that is not eligible is listed and nothing else: no
    request, no warning, no error. *)
Lemma loop_skip_quiet (item : tree_item) (rest : list tree_item)
    (st : loop_state) (s : effects) :
  stop_condition st = false ->
  eligible item = false ->
  exists s1,
    requests s1 = requests s /\ problems s1 = problems s /\
    collect_loop W (item :: rest) st s =
    collect_loop W rest (list_path st (path item)) s1.
Proof.
  intros Hstop Hel. rewrite collect_loop_cons, Hstop. unfold eligible in Hel.
  cbv zeta.
  destruct (pystr_eqb (type item) (lit "blob")).
  - rewrite andb_true_l in Hel. rewrite Hel.
    exists (logged s INFO
              (lit "Skipping file with unsuitable extension: " ++ path item)).
    repeat split. unfold problems, logged. cbn [logs].
    rewrite filter_app. cbn [filter is_problem fst]. now rewrite app_nil_r.
  - exists s. repeat split.
Qed.

Lemma problems_after_failure (s : effects) (item : tree_item) (l : level)
    (msg : pystr) :
  l = WARNING \/ l = ERROR ->
  problems (logged (fetched s item) l msg) = problems s + 1.
Proof.
  intros Hl. unfold problems, fetched, sent, logged. cbn [logs].
  rewrite !filter_app, !length_app.
  destruct Hl as [-> | ->]; cbn [filter is_problem fst length]; lia.
Qed.

(** A run over entries that are all ineligible or failing: every entry
    is listed, every eligible one is requested once and reported once,
    and the corpus and the counter are as before. *)
Lemma loop_all_skipped (tree : list tree_item) :
  forall st s,
    stop_condition st = false ->
    (forall reqs item,
       In item tree -> eligible item = true -> blob_failure W reqs item) ->
    exists s',
      collect_loop W tree st s =
        (Ok {| code := code st;
               file_list := file_list st ++ manifest_lines tree;
               file_count := file_count st |}, s') /\
      requests s' =
        requests s ++ map (fun item => GET (url item)) (filter eligible tree) /\
      problems s' = problems s + length (filter eligible tree).
Proof.
  induction tree as [|item rest IH]; intros st s Hstop Hall.
  - exists s. cbn [collect_loop ret manifest_lines map concat filter length].
    rewrite !app_nil_r. destruct st. split; [reflexivity|]. split; [reflexivity|lia].
  - assert (Hrest : forall reqs it,
              In it rest -> eligible it = true -> blob_failure W reqs it).
    { intros reqs it Hin. apply Hall. now right. }
    assert (Hlist : forall fl : pystr,
              (fl ++ (path item ++ nl)) ++ manifest_lines rest
              = fl ++ manifest_lines (item :: rest)).
    { intros fl. unfold manifest_lines. cbn [map concat].
      now rewrite <- !app_assoc. }
    cbn [filter]. destruct (eligible item) eqn:Hel.
    + destruct (loop_failure W item rest st s Hstop Hel
                  (Hall (requests s) item (or_introl eq_refl) Hel))
        as (l & msg & Hl & Heq).
      destruct (IH (list_path st (path item)) (logged (fetched s item) l msg)
                  Hstop Hrest) as (s' & Hrun & Hreq & Hprob).
      exists s'. rewrite Heq, Hrun. cbn [list_path code file_list file_count].
      rewrite Hlist. split; [reflexivity|]. split.
      * rewrite Hreq. cbn [logged fetched sent requests map].
        now rewrite <- app_assoc.
      * rewrite Hprob, (problems_after_failure s item l msg Hl).
        cbn [length]. lia.
    + destruct (loop_skip_quiet item rest st s Hstop Hel)
        as (s1 & Hr1 & Hp1 & Heq).
      destruct (IH (list_path st (path item)) s1 Hstop Hrest)
        as (s' & Hrun & Hreq & Hprob).
      exists s'. rewrite Heq, Hrun. cbn [list_path code file_list file_count].
      rewrite Hlist. split; [reflexivity|]. split; congruence.
Qed.

End Runs.

(** ** The caps on the corpus and on the prompt *)

Lemma length_firstn_cut {A} (n : nat) (l : list A) :
  n < length l -> length (firstn n l) = n.
Proof. intros H. rewrite length_firstn. lia. Qed.




(** ** The truncation marker and the manifest *)

Lemma file_list_ends_with_nl (W : World) (tree : list tree_item) (s : effects)
    (st' : loop_state) (s' : effects) :
  collect_loop W tree loop_init s = (Ok st', s') ->
  exists l, file_list st' = l ++ nl.
Proof.
  intros Hrun.
  destruct (loop_manifest W tree loop_init s st' s' Hrun) as (k & _ & Hl & _).
  rewrite Hl. generalize (firstn k tree). intros items.
  induction items as [|item items IH] using rev_ind.
  - exists (nl ++ lit "All repository files:"). cbn [manifest_lines map concat].
    rewrite app_nil_r. unfold loop_init. cbn [file_list].
    now rewrite <- app_assoc.
  - exists (file_list loop_init ++ manifest_lines items ++ path item).
    unfold manifest_lines. rewrite map_app, concat_app. cbn [map concat].
    rewrite app_nil_r. now rewrite <- !app_assoc.
Qed.

(** C2, the claim as stated fails: in a repository of 101 small source
    files the collector stops at the file cap (102 requests: metadata,
    tree and 100 blobs) and the string it returns neither ends with nor
    contains the truncation marker; and when a file of 20001 characters
    passes the character cap, the returned string contains the marker
    but does not end with it. *)
Lemma stop_at_file_cap_is_silent :
  match collect_code_from_github_repo Mock.world_101 Mock.testrepo_url no_effects with
  | (Ok out, s') =>
      negb (endswith out code_truncated) && negb (contains out code_truncated)
      && (length (requests s') =? 102)
  | (Raise _, _) => false
  end = true /\
  match collect_code_from_github_repo Mock.world_big Mock.testrepo_url no_effects with
  | (Ok out, _) => negb (endswith out code_truncated) && contains out code_truncated
  | (Raise _, _) => false
  end = true.
Proof. split; vm_compute; reflexivity. Qed.

(** C2, amended: the string the collector returns never ends with the
    truncation marker: it is the corpus the loop leaves, followed by
    the manifest (the heading and the paths of the entries visited).
    Whenever appending a decoded file makes the corpus longer than
    20000 characters, the collector returns the first 20000 characters
    of that text, then the literal truncation marker, then the manifest
    up to and including that file; the entries after it are left
    alone. *)
Theorem marker_ends_truncated_corpus (W : World) :
  (forall repo_url s out s',
     collect_code_from_github_repo W repo_url s = (Ok out, s') ->
     endswith out code_truncated = false) /\
  (forall repo_url s d1 d2,
     well_formed_url W repo_url ->
     fetch_succeeds W (requests s) (metadata_url W repo_url) d1 ->
     fetch_succeeds W (requests s ++ [GET (metadata_url W repo_url)])
       (branch_tree_url W repo_url d1) d2 ->
     exists st s' k,
       collect_loop W (from_option [] (tree d2)) loop_init
         (sent (sent s (GET (metadata_url W repo_url)))
               (GET (branch_tree_url W repo_url d1))) = (Ok st, s') /\
       k <= length (from_option [] (tree d2)) /\
       collect_code_from_github_repo W repo_url s =
         (Ok (code st ++ (nl ++ lit "All repository files:" ++ nl)
              ++ manifest_lines (firstn k (from_option [] (tree d2)))), s')) /\
  (forall repo_url s d1 d2 before item rest st s1 file_content,
     well_formed_url W repo_url ->
     fetch_succeeds W (requests s) (metadata_url W repo_url) d1 ->
     fetch_succeeds W (requests s ++ [GET (metadata_url W repo_url)])
       (branch_tree_url W repo_url d1) d2 ->
     tree d2 = Some (before ++ item :: rest) ->
     collect_loop W before loop_init
       (sent (sent s (GET (metadata_url W repo_url)))
             (GET (branch_tree_url W repo_url d1))) = (Ok st, s1) ->
     stop_condition st = false ->
     eligible item = true ->
     blob_decodes W (requests s1) item file_content ->
     max_code_length < length (code st ++ file_entry (path item) file_content) ->
     collect_code_from_github_repo W repo_url s =
       (Ok (firstn max_code_length (code st ++ file_entry (path item) file_content)
            ++ code_truncated
            ++ (nl ++ lit "All repository files:" ++ nl)
            ++ manifest_lines (before ++ [item])),
        fetched s1 item)).
Proof.
  split; [|split].
  - intros repo_url s out s' Hc.
    destruct (collect_ok_inv W repo_url s out s' Hc)
      as (_ & d1 & d2 & st & _ & _ & Hrun & ->).
    destruct (file_list_ends_with_nl W _ _ st s' Hrun) as [l ->].
    rewrite app_assoc. apply endswith_nl_marker.
  - intros repo_url s d1 d2 Hwf H1 H2.
    destruct (collect_run W repo_url s d1 d2 Hwf H1 H2) as (st & s' & Hrun & Hc).
    destruct (loop_manifest W _ loop_init _ st s' Hrun) as (k & Hk & Hl & _).
    exists st, s', k. split; [exact Hrun|]. split; [exact Hk|].
    rewrite Hc, Hl. reflexivity.
  - intros repo_url s d1 d2 before item rest st s1 fc Hwf H1 H2 Ht Hbefore Hgo
      Hel Hdec Hcut.
    destruct (collect_run W repo_url s d1 d2 Hwf H1 H2) as (st2 & s2 & Hrun & Hc).
    rewrite Ht in Hrun. cbn [from_option] in Hrun.
    rewrite (collect_loop_app W before (item :: rest) _ _ st s1 Hbefore Hgo) in Hrun.
    rewrite (loop_decoded W item rest st s1 fc Hgo Hel Hdec) in Hrun.
    rewrite (append_file_cut st (path item) fc Hcut) in Hrun.
    inversion Hrun; subst. rewrite Hc. unfold truncated. cbn [code file_list].
    rewrite (loop_lists_all W before loop_init _ st s1 Hbefore Hgo).
    unfold manifest_lines. rewrite map_app, concat_app. cbn [map concat loop_init file_list].
    rewrite app_nil_r, <- !app_assoc. reflexivity.
Qed.

(** C3, the claim as stated fails: the tree has the entries [main.py]
    and [README.md]; [main.py] passes the character cap, the loop
    stops, and [README.md] is not in the returned string. *)
Lemma manifest_misses_entries_after_stop :
  match collect_code_from_github_repo Mock.world_big Mock.testrepo_url no_effects with
  | (Ok out, _) => negb (contains out (lit "README.md"))
  | (Raise _, _) => false
  end = true.
Proof. vm_compute. reflexivity. Qed.

(** C3, amended: the manifest lists, in encounter order and one per
    line, the paths of the entries visited before the loop stopped,
    whether or not their content was included: a prefix of the tree.
    It is the whole tree unless the loop stopped at the 100-file cap or
    at the 20000-character cap. *)
Theorem manifest_lists_visited_prefix (W : World) (tree : list tree_item)
    (s : effects) :
  exists st' s' k,
    collect_loop W tree loop_init s = (Ok st', s') /\
    k <= length tree /\
    file_list st' =
      (nl ++ lit "All repository files:" ++ nl) ++ manifest_lines (firstn k tree) /\
    (k = length tree \/
     max_files <= file_count st' \/ max_code_length <= length (code st')).
Proof.
  destruct (collect_loop_total W tree loop_init s) as (st' & s' & Hrun).
  destruct (loop_manifest W tree loop_init s st' s' Hrun) as (k & Hk & Hl & Hend).
  exists st', s', k. repeat split; auto.
  destruct Hend as [Hend|Hend]; [now left|right].
  now apply stop_condition_true.
Qed.

(** ** A file that passes the cap *)

(** C7: when the entry is an eligible blob that decodes to
    [file_content] and appending it makes the corpus longer than 20000
    characters, the loop ends there: the corpus is the first 20000
    characters of the extended text (exactly 20000 of them) followed by
    the truncation marker, the file is counted, and the remaining
    entries are neither listed nor fetched. *)
Theorem oversized_file_truncates_and_stops (W : World) (item : tree_item)
    (rest : list tree_item) (st : loop_state) (s : effects)
    (file_content : pystr) :
  stop_condition st = false ->
  eligible item = true ->
  blob_decodes W (requests s) item file_content ->
  max_code_length <
    length (code st ++ nl ++ nl ++ lit "// File: " ++ path item ++ nl ++ file_content) ->
  collect_loop W (item :: rest) st s =
    (Ok {| code :=
             firstn max_code_length
               (code st ++ nl ++ nl ++ lit "// File: " ++ path item ++ nl
                ++ file_content)
             ++ code_truncated;
           file_list := file_list st ++ path item ++ nl;
           file_count := file_count st + 1 |},
     {| requests := requests s ++ [GET (url item)];
        logs := logs s ++ [(INFO, lit "Processing file: " ++ path item)] |}) /\
  length (firstn max_code_length
            (code st ++ nl ++ nl ++ lit "// File: " ++ path item ++ nl
             ++ file_content)) = max_code_length.
Proof.
  intros Hstop Hel Hdec Hcut. split.
  - rewrite (loop_decoded W item rest st s file_content Hstop Hel Hdec).
    rewrite (append_file_cut st (path item) file_content Hcut). reflexivity.
  - now apply length_firstn_cut.
Qed.

(** ** A blob without content *)

(** C10: an eligible blob whose JSON has encoding [base64] and a
    missing or empty [content] is included with an empty body (the
    base64 and UTF-8 decoders map the empty input to the empty output):
    the corpus gets the header [// File: <path>] and nothing after it,
    and the included-file counter goes up by one.  The loop then goes on
    with the next entry, or cuts the corpus if the header passed the
    cap. *)
Theorem empty_content_is_included (W : World) (item : tree_item)
    (rest : list tree_item) (st : loop_state) (s : effects)
    (r : response github_json) (d : github_json) :
  stop_condition st = false ->
  eligible item = true ->
  github W (requests s) (url item) = Ok r ->
  status_code r = 200%Z ->
  body_json r = Ok d ->
  encoding d = Some (lit "base64") ->
  content d = None \/ content d = Some [] ->
  b64decode W [] = Ok [] ->
  decode_utf8 W [] = Ok [] ->
  let st1 :=
    {| code := code st ++ nl ++ nl ++ lit "// File: " ++ path item ++ nl;
       file_list := file_list st ++ path item ++ nl;
       file_count := file_count st + 1 |} in
  let s1 :=
    {| requests := requests s ++ [GET (url item)];
       logs := logs s ++ [(INFO, lit "Processing file: " ++ path item)] |} in
  collect_loop W (item :: rest) st s =
    if max_code_length <? length (code st1) then
      (Ok {| code := firstn max_code_length (code st1) ++ code_truncated;
             file_list := file_list st1;
             file_count := file_count st + 1 |}, s1)
    else collect_loop W rest st1 s1.
Proof.
  intros Hstop Hel Hg Hs Hb He Hc Hd Hu st1 s1.
  assert (Hdec : blob_decodes W (requests s) item []).
  { exists r, d, []. rewrite He. cbn [from_option].
    repeat split; auto.
    destruct Hc as [-> | ->]; exact Hd. }
  rewrite (loop_decoded W item rest st s [] Hstop Hel Hdec).
  assert (Hentry : code st ++ file_entry (path item) [] = code st1).
  { unfold file_entry, st1. cbn [code]. now rewrite app_nil_r. }
  destruct (max_code_length <? length (code st1)) eqn:E.
  - apply Nat.ltb_lt in E. rewrite <- Hentry in E.
    rewrite (append_file_cut st (path item) [] E).
    unfold truncated. rewrite Hentry. reflexivity.
  - apply Nat.ltb_ge in E. rewrite <- Hentry in E.
    rewrite (append_file_fits st (path item) [] E).
    unfold appended. rewrite Hentry. reflexivity.
Qed.

(** ** Failures: per file, and fatal *)

(** C6: a per-file failure (the blob fetch raises or is answered with a
    status other than 200, the body is not JSON, the encoding is not
    [base64], the base64 or the UTF-8 decoding fails) is logged as a
    warning or an error, changes neither the corpus nor the counter, and
    the loop goes on with the next entry.  So a run over entries that
    all fail or are not eligible lists every path, requests every
    eligible blob once, reports each of them once and ends with the
    corpus and the counter it started with; and a file that follows a
    failed entry is fetched and included.  The collector returns
    normally exactly when the URL is well formed and the metadata fetch
    and the tree fetch both succeed: only a malformed URL or path, a
    failed metadata fetch or a failed tree fetch makes it raise. *)
Theorem per_file_failures_are_skipped (W : World) :
  (forall tree st s,
     stop_condition st = false ->
     (forall reqs item,
        In item tree -> eligible item = true -> blob_failure W reqs item) ->
     exists s',
       collect_loop W tree st s =
         (Ok {| code := code st;
                file_list := file_list st ++ manifest_lines tree;
                file_count := file_count st |}, s') /\
       requests s' =
         requests s ++ map (fun item => GET (url item)) (filter eligible tree) /\
       problems s' = problems s + length (filter eligible tree)) /\
  (forall item next st s file_content,
     stop_condition st = false ->
     eligible item = true ->
     blob_failure W (requests s) item ->
     eligible next = true ->
     blob_decodes W (requests s ++ [GET (url item)]) next file_content ->
     length (code st ++ file_entry (path next) file_content) <= max_code_length ->
     exists s',
       collect_loop W [item; next] st s =
         (Ok {| code := code st ++ file_entry (path next) file_content;
                file_list := file_list st ++ manifest_lines [item; next];
                file_count := file_count st + 1 |}, s') /\
       requests s' = requests s ++ [GET (url item); GET (url next)] /\
       problems s' = problems s + 1) /\
  (forall item rest st s,
     stop_condition st = false ->
     eligible item = true ->
     blob_failure W (requests s) item ->
     exists l msg,
       (l = WARNING \/ l = ERROR) /\
       collect_loop W (item :: rest) st s =
       collect_loop W rest
         {| code := code st;
            file_list := file_list st ++ path item ++ nl;
            file_count := file_count st |}
         {| requests := requests s ++ [GET (url item)];
            logs := logs s ++ [(INFO, lit "Processing file: " ++ path item);
                              (l, msg)] |}) /\
  (forall repo_url s,
     (exists out s', collect_code_from_github_repo W repo_url s = (Ok out, s')) <->
     (well_formed_url W repo_url /\
      exists d1 d2,
        fetch_succeeds W (requests s) (metadata_url W repo_url) d1 /\
        fetch_succeeds W (requests s ++ [GET (metadata_url W repo_url)])
          (branch_tree_url W repo_url d1) d2)).
Proof.
  split; [|split; [|split]].
  - intros tree st s Hstop Hall. now apply loop_all_skipped.
  - intros item next st s fc Hstop Hel Hfail Heln Hdec Hfit.
    destruct (loop_failure W item [next] st s Hstop Hel Hfail)
      as (l & msg & Hl & Heq).
    rewrite Heq.
    rewrite (loop_decoded W next [] (list_path st (path item))
               (logged (fetched s item) l msg) fc Hstop Heln Hdec).
    rewrite (append_file_fits (list_path st (path item)) (path next) fc Hfit).
    eexists. split; [|split].
    + cbn [collect_loop ret]. unfold appended, list_path, manifest_lines.
      cbn [code file_list file_count map concat].
      rewrite app_nil_r, <- !app_assoc. reflexivity.
    + unfold fetched, sent, logged. cbn [requests]. now rewrite <- app_assoc.
    + unfold problems, fetched, sent, logged. cbn [logs].
      rewrite !filter_app, !length_app.
      destruct Hl as [-> | ->]; cbn [filter is_problem fst length]; lia.
  - intros item rest st s Hstop Hel Hfail.
    destruct (loop_failure W item rest st s Hstop Hel Hfail)
      as (l & msg & Hl & Heq).
    exists l, msg. split; [exact Hl|]. rewrite Heq.
    unfold fetched, sent, logged, list_path. cbn [requests logs].
    rewrite <- app_assoc. reflexivity.
  - intros repo_url s. split.
    + intros (out & s' & Hc).
      destruct (collect_ok_inv W repo_url s out s' Hc)
        as (Hwf & d1 & d2 & st & H1 & H2 & _).
      split; [exact Hwf|]. exists d1, d2. auto.
    + intros (Hwf & d1 & d2 & H1 & H2).
      destruct (collect_run W repo_url s d1 d2 Hwf H1 H2) as (st & s' & _ & Hc).
      exists (code st ++ file_list st), s'. exact Hc.
Qed.

(** ** The file cap and the extension filter *)


(** C5: when the URL is well formed and the repository-metadata fetch
    is answered with a status other than 200, [/review] replies 400 with
    the fixed access-rights message, and the only request of the call is
    that GET: nothing is sent to the completion service. *)
Theorem metadata_failure_gives_400 (W : World) (review_request : ReviewRequest)
    (s : effects) (r : response github_json) :
  well_formed_url W (github_url_repo review_request) ->
  github W (requests s) (metadata_url W (github_url_repo review_request)) = Ok r ->
  status_code r <> 200%Z ->
  exists s',
    review W review_request s =
      (Ok (HTTPException 400
             (lit "Failed to access GitHub repository. Check the URL and access rights.")),
       s') /\
    requests s' =
      requests s ++ [GET (metadata_url W (github_url_repo review_request))].
Proof.
  intros Hwf Hg Hs. rewrite review_unfold. unfold try_except, bind.
  rewrite (collect_metadata_refused W _ s r Hwf Hg Hs).
  eexists. split; reflexivity.
Qed.

(** C4: when the collection has succeeded, a credential is configured
    and the POST to the completion service is answered with a status
    outside 200-299, [/review] replies 500 with the detail
    [HTTP error when accessing Mistral AI API.] and no review. *)
Theorem completion_http_error_gives_500 (W : World)
    (review_request : ReviewRequest) (s : effects) (project_code : pystr)
    (s1 : effects) (key : pystr) (r : response json) :
  collect_code_from_github_repo W (github_url_repo review_request) s =
    (Ok project_code, s1) ->
  MISTRAL_API_KEY W = Some key ->
  key <> [] ->
  mistral W (requests s1) api_url (lit "Bearer " ++ key)
    (build_prompt (candidate_level review_request)
       (assignment_description review_request) (html_escape project_code)) = Ok r ->
  (status_code r < 200 \/ 299 < status_code r)%Z ->
  exists s',
    review W review_request s =
      (Ok (HTTPException 500 (lit "HTTP error when accessing Mistral AI API.")), s').
Proof.
  intros Hc Hkey Hne Hm Hst. rewrite review_unfold. unfold try_except at 1.
  unfold bind at 1. rewrite Hc. unfold bind at 1. unfold log at 1.
  destruct (get_mistral_review_http_error W _ key
              (logged s1 INFO (lit "Sending request to Mistral AI for review."))
              r Hkey Hne Hm Hst) as (s2 & Hr & _).
  unfold bind at 1. rewrite Hr.
  eexists. reflexivity.
Qed.

(** C9: when the collection has succeeded and [MISTRAL_API_KEY] is
    unset, the review client raises without sending anything (the
    requests of the call are those of the collection), and [/review]
    replies 500 with the generic internal-error message, which is not
    the message of a completion-service HTTP error. *)
Theorem missing_api_key_gives_generic_500 (W : World)
    (review_request : ReviewRequest) (s : effects) (project_code : pystr)
    (s1 : effects) :
  collect_code_from_github_repo W (github_url_repo review_request) s =
    (Ok project_code, s1) ->
  MISTRAL_API_KEY W = None ->
  (forall prompt s0,
     get_mistral_review W prompt s0 =
     (Raise {| exc_type := Exception;
               exc_str := lit "Mistral AI API key not found in environment variables.";
               exc_response := None |}, s0)) /\
  exists s',
    review W review_request s =
      (Ok (HTTPException 500
             (lit "An internal server error occurred. Please try again later.")),
       s') /\
    requests s' = requests s1 /\
    lit "An internal server error occurred. Please try again later."
      <> mistral_http_error.
Proof.
  intros Hc Hkey. split.
  - intros prompt s0. now apply get_mistral_review_no_key.
  - rewrite review_unfold. unfold try_except at 1.
    unfold bind at 1. rewrite Hc. unfold bind at 1. unfold log at 1.
    unfold bind at 1. rewrite (get_mistral_review_no_key W _ _ Hkey).
    eexists. split; [reflexivity|]. split; [reflexivity|discriminate].
Qed.

(** ** The theorems at work on the mocked services of [tests.py] *)

(** A file of 20001 characters, followed by another entry: the text is
    cut, the marker comes next, then the manifest with that file alone. *)
Lemma marker_ends_truncated_corpus_witness :
  let W := Mock.world_big in
  let u := Mock.testrepo_url in
  let d1 := Mock.repo_json (lit "main") in
  let s0 := sent (sent no_effects (GET (metadata_url W u)))
                 (GET (branch_tree_url W u d1)) in
  collect_code_from_github_repo W u no_effects =
    (Ok (firstn max_code_length
           (code loop_init ++ file_entry (path Mock.main_py) (repeat 97%N 20001))
         ++ code_truncated
         ++ (nl ++ lit "All repository files:" ++ nl)
         ++ manifest_lines ([] ++ [Mock.main_py])),
     fetched s0 Mock.main_py).
Proof.
  intros W u d1 s0.
  apply (proj2 (proj2 (marker_ends_truncated_corpus W)) u no_effects d1
           (Mock.tree_json [Mock.main_py; Mock.readme]) [] Mock.main_py
           [Mock.readme] loop_init s0 (repeat 97%N 20001)).
  - split; [reflexivity|]. vm_compute. lia.
  - exists (Mock.json_response 200 d1). repeat split; reflexivity.
  - exists (Mock.json_response 200 (Mock.tree_json [Mock.main_py; Mock.readme])).
    repeat split; reflexivity.
  - reflexivity.
  - reflexivity.
  - vm_compute; reflexivity.
  - vm_compute; reflexivity.
  - exists (Mock.json_response 200 (Mock.blob_json Mock.big_content (lit "base64"))),
      (Mock.blob_json Mock.big_content (lit "base64")),
      (repeat Byte.x61 20001).
    repeat split; vm_compute; reflexivity.
  - apply Nat.ltb_lt. vm_compute. reflexivity.
Defined.

(** A file of 20001 characters in an empty corpus: cut, marked, and
    the entry after it is left alone. *)
Lemma oversized_file_truncates_and_stops_witness :
  stop_condition loop_init = false /\
  eligible Mock.main_py = true /\
  blob_decodes Mock.world_big [] Mock.main_py (repeat 97%N 20001) /\
  collect_loop Mock.world_big [Mock.main_py; Mock.readme] loop_init no_effects =
    (Ok {| code :=
             firstn max_code_length
               ([] ++ nl ++ nl ++ lit "// File: " ++ lit "main.py" ++ nl
                ++ repeat 97%N 20001)
             ++ code_truncated;
           file_list := file_list loop_init ++ lit "main.py" ++ nl;
           file_count := 1 |},
     {| requests := [GET Mock.blob_sha1];
        logs := [(INFO, lit "Processing file: " ++ lit "main.py")] |}).
Proof.
  assert (Hstop : stop_condition loop_init = false) by (vm_compute; reflexivity).
  assert (Hel : eligible Mock.main_py = true) by (vm_compute; reflexivity).
  assert (Hdec : blob_decodes Mock.world_big (requests no_effects) Mock.main_py
                   (repeat 97%N 20001)).
  { exists (Mock.json_response 200 (Mock.blob_json Mock.big_content (lit "base64"))),
      (Mock.blob_json Mock.big_content (lit "base64")),
      (repeat Byte.x61 20001).
    repeat split; vm_compute; reflexivity. }
  split; [exact Hstop|]. split; [exact Hel|]. split; [exact Hdec|].
  apply (oversized_file_truncates_and_stops Mock.world_big Mock.main_py
           [Mock.readme] loop_init no_effects (repeat 97%N 20001) Hstop Hel Hdec).
  apply Nat.ltb_lt. vm_compute. reflexivity.
Defined.

(** A blob without a [content] key: the header alone, counted as a file. *)
Lemma empty_content_is_included_witness :
  collect_loop Mock.world_no_content [Mock.main_py] loop_init no_effects =
    (Ok {| code := nl ++ nl ++ lit "// File: main.py" ++ nl;
           file_list := file_list loop_init ++ lit "main.py" ++ nl;
           file_count := 1 |},
     {| requests := [GET Mock.blob_sha1];
        logs := [(INFO, lit "Processing file: main.py")] |}).
Proof.
  refine (eq_trans
    (empty_content_is_included Mock.world_no_content Mock.main_py [] loop_init
       no_effects
       (Mock.json_response 200
          {| default_branch := None; tree := None; content := None;
             encoding := Some (lit "base64") |})
       {| default_branch := None; tree := None; content := None;
          encoding := Some (lit "base64") |}
       _ _ _ _ _ _ _ _ _) _).
  - vm_compute; reflexivity.
  - vm_compute; reflexivity.
  - reflexivity.
  - reflexivity.
  - reflexivity.
  - reflexivity.
  - left; reflexivity.
  - reflexivity.
  - reflexivity.
  - vm_compute; reflexivity.
Defined.

(** A blob fetch answered with 404: listed, requested once, reported
    once, nothing included; and the file after such a blob is included. *)
Lemma per_file_failures_are_skipped_witness :
  (exists s',
     collect_loop Mock.world_blob_404 [Mock.main_py] loop_init no_effects =
       (Ok {| code := [];
              file_list := file_list loop_init ++ manifest_lines [Mock.main_py];
              file_count := 0 |}, s') /\
     requests s' = [GET Mock.blob_sha1] /\
     problems s' = 1) /\
  (exists s',
     collect_loop Mock.world_bad_then_good [Mock.missing_py; Mock.main_py]
       loop_init no_effects =
       (Ok {| code := file_entry (lit "main.py") (lit "print('Hello, World!')");
              file_list := file_list loop_init
                           ++ manifest_lines [Mock.missing_py; Mock.main_py];
              file_count := 1 |}, s') /\
     requests s' = [GET (url Mock.missing_py); GET Mock.blob_sha1] /\
     problems s' = 1).
Proof.
  split.
  - apply (proj1 (per_file_failures_are_skipped Mock.world_blob_404)
             [Mock.main_py] loop_init no_effects).
    + vm_compute; reflexivity.
    + intros reqs item [<-|[]] _.
      apply fetch_not_200 with (r := Mock.text_response 404 []).
      * reflexivity.
      * discriminate.
  - apply (proj1 (proj2 (per_file_failures_are_skipped Mock.world_bad_then_good))
             Mock.missing_py Mock.main_py loop_init no_effects
             (lit "print('Hello, World!')")).
    + vm_compute; reflexivity.
    + vm_compute; reflexivity.
    + apply fetch_not_200 with (r := Mock.text_response 404 []).
      * reflexivity.
      * discriminate.
    + vm_compute; reflexivity.
    + exists (snd Mock.hello_blob),
        (Mock.blob_json (lit "cHJpbnQoJ0hlbGxvLCBXb3JsZCEnKQ==") (lit "base64")).
      eexists. repeat split; vm_compute; reflexivity.
    + apply Nat.leb_le. vm_compute. reflexivity.
Defined.

(** [test_review_github_api_error]: 400 after the single metadata GET. *)
Lemma metadata_failure_gives_400_witness :
  exists s',
    review Mock.world_github_404 (Mock.test_request Mock.nonexistent_url) no_effects =
      (Ok (HTTPException 400
             (lit "Failed to access GitHub repository. Check the URL and access rights.")),
       s') /\
    requests s' =
      [GET (lit "https://api.github.com/repos/testuser/nonexistentrepo")].
Proof.
  apply (metadata_failure_gives_400 Mock.world_github_404
           (Mock.test_request Mock.nonexistent_url) no_effects
           (Mock.text_response 404 [])).
  - split; [reflexivity|]. vm_compute. lia.
  - reflexivity.
  - discriminate.
Defined.

(** [test_review_mistral_api_error]: 500 with the distinguished detail. *)
Lemma completion_http_error_gives_500_witness :
  exists s',
    review Mock.world_mistral_500 (Mock.test_request Mock.testrepo_url) no_effects =
      (Ok (HTTPException 500 (lit "HTTP error when accessing Mistral AI API.")), s').
Proof.
  pose (run := collect_code_from_github_repo Mock.world_mistral_500
                 Mock.testrepo_url no_effects).
  assert (H : run = (Ok (match fst run with Ok o => o | Raise _ => [] end), snd run))
    by (vm_compute; reflexivity).
  apply (completion_http_error_gives_500 Mock.world_mistral_500
           (Mock.test_request Mock.testrepo_url) no_effects _ _
           (lit "test-key")
           (Mock.text_response 500 (lit "Internal Server Error")) H).
  - reflexivity.
  - discriminate.
  - vm_compute; reflexivity.
  - right. reflexivity.
Defined.

(** No credential: 500 with the generic detail after the three GETs of
    the collection, and no POST. *)
Lemma missing_api_key_gives_generic_500_witness :
  exists s',
    review Mock.world_no_key (Mock.test_request Mock.testrepo_url) no_effects =
      (Ok (HTTPException 500
             (lit "An internal server error occurred. Please try again later.")),
       s') /\
    requests s' = [GET Mock.testrepo_api; GET Mock.testrepo_tree; GET Mock.blob_sha1].
Proof.
  pose (run := collect_code_from_github_repo Mock.world_no_key
                 Mock.testrepo_url no_effects).
  assert (H : run = (Ok (match fst run with Ok o => o | Raise _ => [] end), snd run))
    by (vm_compute; reflexivity).
  destruct (proj2 (missing_api_key_gives_generic_500 Mock.world_no_key
                     (Mock.test_request Mock.testrepo_url) no_effects _ _ H
                     eq_refl)) as (s' & Hr & Hreq & _).
  exists s'. split; [exact Hr|]. rewrite Hreq. vm_compute. reflexivity.
Defined.

(** The three scenarios of [tests.py] that reach the handler. *)

Example test_review_success :
  fst (review Mock.world_success (Mock.test_request Mock.testrepo_url) no_effects) =
  Ok (Review (JStr (lit "This is a test review from Mistral AI."))).
Proof. vm_compute. reflexivity. Qed.

Example test_review_github_api_error :
  fst (review Mock.world_github_404 (Mock.test_request Mock.nonexistent_url) no_effects) =
  Ok (HTTPException 400
        (lit "Failed to access GitHub repository. Check the URL and access rights.")).
Proof. vm_compute. reflexivity. Qed.

Example test_review_mistral_api_error :
  fst (review Mock.world_mistral_500 (Mock.test_request Mock.testrepo_url) no_effects) =
  Ok (HTTPException 500 (lit "HTTP error when accessing Mistral AI API.")).
Proof. vm_compute. reflexivity. Qed.

(** The corpus of the success scenario: the header, the decoded text,
    and the manifest. *)
Example test_corpus :
  fst (collect_code_from_github_repo Mock.world_success Mock.testrepo_url no_effects) =
  Ok (nl ++ nl ++ lit "// File: main.py" ++ nl ++ lit "print('Hello, World!')"
      ++ nl ++ lit "All repository files:" ++ nl ++ lit "main.py" ++ nl).
Proof. vm_compute. reflexivity. Qed.

(** * Further properties of the code *)

(** ** The envelope of the completion service *)

Lemma lookup_some_nonempty (k : pystr) (kv : list (pystr * json)) (v : json) :
  lookup k kv = Some v -> kv <> [].
Proof. destruct kv; [discriminate|]. intros _ H. discriminate. Qed.

(** An accepted envelope gives its content, without any effect. *)
Lemma extract_review_text_accepts (j v : json) (s : effects) :
  well_formed_envelope j v ->
  extract_review_text j s = (Ok v, s).
Proof.
  intros (kv & kvc & rest & kvm & -> & Hc & Hm & Hv & Ht).
  unfold extract_review_text, try_except, bind, dict_get, first_item, ret.
  rewrite Hc. cbn [truthy is_list negb orb].
  rewrite Hm. destruct kvm as [|p kvm]; [discriminate|].
  cbn [truthy is_dict negb orb]. rewrite Hv, Ht. reflexivity.
Qed.

(** Any other JSON value is refused: the client raises, sends nothing,
    and the text of the exception does not look like an HTTP error of
    the completion service. *)
Lemma extract_review_text_refuses (j : json) (s : effects) :
  (exists v, well_formed_envelope j v) \/
  exists e s',
    extract_review_text j s = (Raise e, s') /\
    requests s' = requests s /\
    isinstance e HTTPStatusError = false /\
    contains (invalid_format ++ exc_str e)
      (lit "HTTP error when accessing Mistral AI API") = false.
Proof.
  unfold extract_review_text, try_except, bind, dict_get, first_item, ret,
    raise_KeyError, raise, log.
  destruct j as [| b | z | str | l | kv];
    try (right; eexists _, _; repeat split; reflexivity).
  destruct (lookup (lit "choices") kv) as [choices|] eqn:Hc;
    [|right; eexists _, _; repeat split; reflexivity].
  destruct choices as [| b | z | str | l | kv']; cbn [truthy is_list];
    try (right; eexists _, _; repeat split; reflexivity);
    try (right; destruct b; eexists _, _; repeat split; reflexivity);
    try (right; destruct (negb (Z.eqb z 0)); eexists _, _; repeat split; reflexivity);
    try (right; destruct (negb (pystr_eqb str [])); eexists _, _; repeat split; reflexivity);
    try (right; destruct kv'; eexists _, _; repeat split; reflexivity).
  destruct l as [|choice rest];
    [right; eexists _, _; repeat split; reflexivity|].
  cbn [truthy is_list negb orb].
  destruct choice as [| b | z | str | l | kvc];
    try (right; eexists _, _; repeat split; reflexivity).
  destruct (lookup (lit "message") kvc) as [message|] eqn:Hm;
    [|right; eexists _, _; repeat split; reflexivity].
  destruct message as [| b | z | str | l | kvm]; cbn [truthy is_dict];
    try (right; eexists _, _; repeat split; reflexivity);
    try (right; destruct b; eexists _, _; repeat split; reflexivity);
    try (right; destruct (negb (Z.eqb z 0)); eexists _, _; repeat split; reflexivity);
    try (right; destruct (negb (pystr_eqb str [])); eexists _, _; repeat split; reflexivity);
    try (right; destruct l; eexists _, _; repeat split; reflexivity).
  destruct kvm as [|p kvm]; [right; eexists _, _; repeat split; reflexivity|].
  cbn [truthy is_dict negb orb].
  destruct (lookup (lit "content") (p :: kvm)) as [v|] eqn:Hv;
    [|right; eexists _, _; repeat split; reflexivity].
  destruct (truthy v) eqn:Ht;
    [|right; eexists _, _; repeat split; reflexivity].
  left. exists v, kv, kvc, rest, (p :: kvm). repeat split; assumption.
Qed.

(** X3: the review client accepts exactly the well-formed envelopes:
    [extract_review_text] returns [v] if and only if the JSON value is
    an object whose [choices] is a list starting with an object whose
    [message] is an object whose [content] is [v], a true value; it
    then has no effect.  In every other case it raises. *)
Theorem envelope_accepted_iff_well_formed (j v : json) (s s' : effects) :
  extract_review_text j s = (Ok v, s') <-> well_formed_envelope j v /\ s' = s.
Proof.
  split.
  - intros H. destruct (extract_review_text_refuses j s) as [[v0 Hwf]|(e & s1 & Hr & _)].
    + rewrite (extract_review_text_accepts j v0 s Hwf) in H.
      inversion H; subst. auto.
    + rewrite Hr in H. discriminate.
  - intros [Hwf ->]. now apply extract_review_text_accepts.
Qed.

(** ** The review client *)

Section Client.

Variable W : World.

Lemma in_2xx_test (sc : Z) :
  in_2xx sc -> (200 <=? sc)%Z && (sc <=? 299)%Z = true.
Proof.
  intros [H1 H2]. apply andb_true_iff. split; now apply Z.leb_le.
Qed.

(** The client when a credential is configured, the POST is answered
    with a 2xx status and a JSON body. *)
Lemma get_mistral_review_answered (prompt key : pystr) (s : effects)
    (r : response json) (j : json) :
  MISTRAL_API_KEY W = Some key ->
  key <> [] ->
  mistral W (requests s) api_url (lit "Bearer " ++ key) prompt = Ok r ->
  in_2xx (status_code r) ->
  body_json r = Ok j ->
  get_mistral_review W prompt s =
  match extract_review_text j (sent s (POST api_url (lit "Bearer " ++ key) prompt)) with
  | (Ok v, s') => (Ok v, s')
  | (Raise e, s') =>
      if isinstance e HTTPStatusError then
        (Raise {| exc_type := Exception; exc_str := mistral_http_error;
                  exc_response := None |},
         logged s' ERROR
           (lit "HTTP error when accessing Mistral AI API: "
            ++ match exc_response e with
               | Some (sc, t) => str_of_Z sc ++ lit " - " ++ t
               | None => []
               end))
      else
        (Raise {| exc_type := Exception; exc_str := invalid_format ++ exc_str e;
                  exc_response := None |},
         logged s' ERROR (lit "Error when accessing Mistral AI API: " ++ exc_str e))
  end.
Proof.
  intros Hkey Hne Hm Hst Hb. unfold get_mistral_review. rewrite Hkey.
  destruct key as [|c key]; [contradiction|].
  unfold try_except at 1. unfold bind at 1. unfold client_post. rewrite Hm.
  unfold bind at 1. unfold raise_for_status. rewrite (in_2xx_test _ Hst).
  unfold ret at 1. unfold bind at 1. unfold lift. rewrite Hb.
  destruct (extract_review_text j _) as [[v|e] s'] eqn:He; [reflexivity|].
  cbn [find fst snd]. destruct (isinstance e HTTPStatusError); [reflexivity|].
  cbn [isinstance issubclass]. reflexivity.
Qed.

End Client.

Section Replies.

Variable W : World.

(** Whatever the client returns is a true value: an empty or missing
    review text is never passed on. *)
Lemma get_mistral_review_returns_truthy (prompt : pystr) (s : effects)
    (v : json) (s' : effects) :
  get_mistral_review W prompt s = (Ok v, s') -> truthy v = true.
Proof.
  unfold get_mistral_review.
  destruct (MISTRAL_API_KEY W) as [[|c key]|]; try discriminate.
  unfold try_except at 1. unfold bind at 1. unfold client_post.
  destruct (mistral W (requests s) api_url (lit "Bearer " ++ c :: key) prompt)
    as [r|e].
  2:{ cbn [find fst snd isinstance issubclass].
      destruct (exc_class_eqb (exc_type e) HTTPStatusError); discriminate. }
  unfold bind at 1. unfold raise_for_status.
  destruct ((200 <=? status_code r)%Z && (status_code r <=? 299)%Z).
  2:{ cbn [find fst snd isinstance issubclass exc_type exc_class_eqb].
      discriminate. }
  unfold ret at 1. unfold bind at 1. unfold lift.
  destruct (body_json r) as [j|e].
  2:{ cbn [find fst snd isinstance issubclass].
      destruct (exc_class_eqb (exc_type e) HTTPStatusError); discriminate. }
  destruct (extract_review_text j _) as [[v0|e] s0] eqn:He.
  - intros H. inversion H; subst.
    destruct (extract_review_text_refuses j
                (sent s (POST api_url (lit "Bearer " ++ c :: key) prompt)))
      as [[v1 Hwf]|(e1 & s1 & Hr & _)].
    + rewrite (extract_review_text_accepts j v1 _ Hwf) in He.
      inversion He; subst. destruct Hwf as (kv & kvc & rest & kvm & H1). tauto.
    + rewrite Hr in He. discriminate.
  - cbn [find fst snd isinstance issubclass].
    destruct (exc_class_eqb (exc_type e) HTTPStatusError); discriminate.
Qed.

(** What the handler does with the outcome of its [try] block. *)
Lemma review_reply_of_collection_error (review_request : ReviewRequest)
    (s : effects) (e : exn) (s1 : effects) :
  collect_code_from_github_repo W (github_url_repo review_request) s = (Raise e, s1) ->
  exists s',
    review W review_request s = (Ok (collection_error_reply e), s') /\
    requests s' = requests s1.
Proof.
  intros Hc. rewrite review_unfold. unfold try_except, bind. rewrite Hc.
  cbn [find fst snd]. unfold collection_error_reply.
  destruct (isinstance e ValueError); [eexists; split; reflexivity|].
  destruct (isinstance e HTTPStatusError); [eexists; split; reflexivity|].
  cbn [isinstance issubclass snd]. unfold log. cbv beta.
  destruct (contains (exc_str e) (lit "HTTP error when accessing Mistral AI API"));
    eexists; split; reflexivity.
Qed.

End Replies.

(** X1: [/review] always answers: the handler never lets an exception
    out.  Its answer is a review that is a true (non-empty) value, or
    status 400, or status 500 with one of two fixed details: the
    completion-service HTTP error message or the generic internal-error
    message. *)
Theorem review_always_replies (W : World) (review_request : ReviewRequest)
    (s : effects) :
  exists r s',
    review W review_request s = (Ok r, s') /\
    match r with
    | Review review_text => truthy review_text = true
    | HTTPException status detail =>
        status = 400%Z \/
        (status = 500%Z /\
         (detail = lit "HTTP error when accessing Mistral AI API." \/
          detail = lit "An internal server error occurred. Please try again later."))
    end.
Proof.
  assert (Herr : forall e, match collection_error_reply e with
    | Review review_text => truthy review_text = true
    | HTTPException status detail =>
        status = 400%Z \/
        (status = 500%Z /\
         (detail = lit "HTTP error when accessing Mistral AI API." \/
          detail = lit "An internal server error occurred. Please try again later."))
    end).
  { intros e. unfold collection_error_reply.
    destruct (isinstance e ValueError); [now left|].
    destruct (isinstance e HTTPStatusError); [now left|].
    destruct (contains _ _); right; split; auto. }
  destruct (collect_code_from_github_repo W (github_url_repo review_request) s)
    as [[project_code|e] s1] eqn:Hc.
  2:{ destruct (review_reply_of_collection_error W review_request s e s1 Hc)
        as (s' & Hr & _).
      exists (collection_error_reply e), s'. split; [exact Hr|apply Herr]. }
  rewrite review_unfold. unfold try_except at 1. unfold bind at 1. rewrite Hc.
  unfold bind at 1. unfold log at 1. unfold bind at 1.
  destruct (get_mistral_review W _ _) as [[v|e] s2] eqn:Hg.
  - exists (Review v), s2. split; [reflexivity|].
    eapply get_mistral_review_returns_truthy. exact Hg.
  - pose proof (Herr e) as He. unfold collection_error_reply in He.
    cbn [find fst snd].
    destruct (isinstance e ValueError); [eexists _, _; split; [reflexivity|exact He]|].
    destruct (isinstance e HTTPStatusError);
      [unfold bind, log; eexists _, _; split; [reflexivity|exact He]|].
    cbn [isinstance issubclass snd]. unfold bind, log. cbv beta.
    destruct (contains (exc_str e) (lit "HTTP error when accessing Mistral AI API"));
      eexists _, _; (split; [reflexivity|exact He]).
Qed.

(** ** Replies of the handler, case by case *)

(** X2: the success path.  When the collection has succeeded, a
    non-empty credential is configured, and the POST is answered with a
    2xx status and a well-formed envelope, [/review] returns the content
    of the envelope as the review; the one POST of the call carries the
    header [Bearer <key>] and the prompt built from the escaped
    corpus. *)
Theorem well_formed_answer_gives_review (W : World)
    (review_request : ReviewRequest) (s : effects) (project_code : pystr)
    (s1 : effects) (key : pystr) (r : response json) (j v : json) :
  let prompt :=
    build_prompt (candidate_level review_request)
      (assignment_description review_request) (html_escape project_code) in
  collect_code_from_github_repo W (github_url_repo review_request) s =
    (Ok project_code, s1) ->
  MISTRAL_API_KEY W = Some key ->
  key <> [] ->
  mistral W (requests s1) api_url (lit "Bearer " ++ key) prompt = Ok r ->
  in_2xx (status_code r) ->
  body_json r = Ok j ->
  well_formed_envelope j v ->
  exists s',
    review W review_request s = (Ok (Review v), s') /\
    requests s' = requests s1 ++ [POST api_url (lit "Bearer " ++ key) prompt].
Proof.
  intros prompt Hc Hkey Hne Hm Hst Hb Hwf. subst prompt.
  rewrite review_unfold. unfold try_except at 1. unfold bind at 1. rewrite Hc.
  unfold bind at 1. unfold log at 1. unfold bind at 1.
  rewrite (get_mistral_review_answered W _ key
             (logged s1 INFO (lit "Sending request to Mistral AI for review."))
             r j Hkey Hne Hm Hst Hb).
  rewrite (extract_review_text_accepts j v _ Hwf).
  eexists. split; reflexivity.
Qed.

(** X4: an answer with a 2xx status whose JSON is not a well-formed
    envelope (no [choices] list, no [message] object, empty or missing
    [content]) makes [/review] reply 500 with the generic
    internal-error message, after the single POST. *)
Theorem malformed_envelope_gives_generic_500 (W : World)
    (review_request : ReviewRequest) (s : effects) (project_code : pystr)
    (s1 : effects) (key : pystr) (r : response json) (j : json) :
  let prompt :=
    build_prompt (candidate_level review_request)
      (assignment_description review_request) (html_escape project_code) in
  collect_code_from_github_repo W (github_url_repo review_request) s =
    (Ok project_code, s1) ->
  MISTRAL_API_KEY W = Some key ->
  key <> [] ->
  mistral W (requests s1) api_url (lit "Bearer " ++ key) prompt = Ok r ->
  in_2xx (status_code r) ->
  body_json r = Ok j ->
  (forall v, ~ well_formed_envelope j v) ->
  exists s',
    review W review_request s =
      (Ok (HTTPException 500
             (lit "An internal server error occurred. Please try again later.")),
       s') /\
    requests s' = requests s1 ++ [POST api_url (lit "Bearer " ++ key) prompt].
Proof.
  intros prompt Hc Hkey Hne Hm Hst Hb Hnwf. subst prompt.
  rewrite review_unfold. unfold try_except at 1. unfold bind at 1. rewrite Hc.
  unfold bind at 1. unfold log at 1. unfold bind at 1.
  rewrite (get_mistral_review_answered W _ key
             (logged s1 INFO (lit "Sending request to Mistral AI for review."))
             r j Hkey Hne Hm Hst Hb).
  destruct (extract_review_text_refuses j
              (sent (logged s1 INFO (lit "Sending request to Mistral AI for review."))
                 (POST api_url (lit "Bearer " ++ key)
                    (build_prompt (candidate_level review_request)
                       (assignment_description review_request)
                       (html_escape project_code)))))
    as [[v Hwf]|(e & s2 & He & Hreq & Hinst & Hphrase)].
  { destruct (Hnwf v Hwf). }
  rewrite He, Hinst.
  cbn [find fst snd isinstance issubclass exc_type exc_class_eqb exc_str].
  unfold bind, log. cbv beta. rewrite Hphrase.
  eexists. split; [reflexivity|]. cbn [ret snd logged requests]. exact Hreq.
Qed.

(** X5: an empty [MISTRAL_API_KEY] is treated like an unset one: after
    a successful collection [/review] replies 500 with the generic
    message and sends nothing to the completion service. *)
Theorem empty_api_key_gives_generic_500 (W : World)
    (review_request : ReviewRequest) (s : effects) (project_code : pystr)
    (s1 : effects) :
  collect_code_from_github_repo W (github_url_repo review_request) s =
    (Ok project_code, s1) ->
  MISTRAL_API_KEY W = Some [] ->
  exists s',
    review W review_request s =
      (Ok (HTTPException 500
             (lit "An internal server error occurred. Please try again later.")),
       s') /\
    requests s' = requests s1.
Proof.
  intros Hc Hkey.
  rewrite review_unfold. unfold try_except at 1. unfold bind at 1. rewrite Hc.
  unfold bind at 1. unfold log at 1. unfold bind at 1.
  unfold get_mistral_review. rewrite Hkey.
  eexists. split; reflexivity.
Qed.

(** X6: when the collector raises, [/review] answers without calling
    the completion service: the requests of the call are the GET
    requests of the collection.  The reply is 400 with the text of the
    exception for a [ValueError] (or a subclass), 400 with the
    access-rights message for an [HTTPStatusError], and 500 otherwise. *)
Theorem collection_failure_skips_completion (W : World)
    (review_request : ReviewRequest) (s : effects) (e : exn) (s1 : effects) :
  collect_code_from_github_repo W (github_url_repo review_request) s = (Raise e, s1) ->
  exists s' gets,
    review W review_request s = (Ok (collection_error_reply e), s') /\
    requests s' = requests s ++ gets /\
    Forall (fun r => is_GET r = true) gets.
Proof.
  intros Hc.
  destruct (review_reply_of_collection_error W review_request s e s1 Hc)
    as (s' & Hr & Hreq).
  destruct (only_sends_collect W (github_url_repo review_request) s)
    as (gets & Hg & Hall).
  rewrite Hc in Hg. cbn [snd] in Hg.
  exists s', gets. split; [exact Hr|]. split; [congruence|exact Hall].
Qed.

Lemma review_of_malformed_url (W : World) (review_request : ReviewRequest)
    (s : effects) :
  ~ well_formed_url W (github_url_repo review_request) ->
  review W review_request s =
    (Ok (HTTPException 400
           (if pystr_eqb (netloc (urlparse W (github_url_repo review_request)))
                 (lit "github.com")
            then lit "Invalid path in GitHub repository URL."
            else lit "Invalid domain in GitHub repository URL.")),
     s).
Proof.
  intros Hnwf. rewrite review_unfold. unfold try_except, bind.
  rewrite collect_unfold.
  destruct (pystr_eqb (netloc (urlparse W (github_url_repo review_request)))
              (lit "github.com")) eqn:Hn; cbn [negb]; [|reflexivity].
  destruct (length (path_parts W (github_url_repo review_request)) <? 2) eqn:Hp;
    [reflexivity|].
  exfalso. apply Hnwf. split.
  - now apply pystr_eqb_eq.
  - now apply Nat.ltb_ge.
Qed.

(** X7: a URL the collector finds malformed is answered 400 before any
    request and any log record: with [Invalid domain ...] when the host
    is not [github.com], with [Invalid path ...] when fewer than two
    path segments are left after trimming the slashes. *)
Theorem malformed_url_gives_400_at_once (W : World)
    (review_request : ReviewRequest) (s : effects) :
  ~ well_formed_url W (github_url_repo review_request) ->
  review W review_request s =
    (Ok (HTTPException 400
           (if pystr_eqb (netloc (urlparse W (github_url_repo review_request)))
                 (lit "github.com")
            then lit "Invalid path in GitHub repository URL."
            else lit "Invalid domain in GitHub repository URL.")),
     s).
Proof. apply review_of_malformed_url. Qed.

(** X8: a tree fetch answered with a status other than 200 makes
    [/review] reply 400 with the detail [Failed to retrieve GitHub
    repository content.]; the call has made the metadata GET and the
    tree GET, and nothing else. *)
Theorem tree_failure_gives_400 (W : World) (review_request : ReviewRequest)
    (s : effects) (d1 : github_json) (r : response github_json) :
  let repo_url := github_url_repo review_request in
  well_formed_url W repo_url ->
  fetch_succeeds W (requests s) (metadata_url W repo_url) d1 ->
  github W (requests s ++ [GET (metadata_url W repo_url)])
    (branch_tree_url W repo_url d1) = Ok r ->
  status_code r <> 200%Z ->
  exists s',
    review W review_request s =
      (Ok (HTTPException 400 (lit "Failed to retrieve GitHub repository content.")),
       s') /\
    requests s' =
      requests s ++ [GET (metadata_url W repo_url);
                     GET (branch_tree_url W repo_url d1)].
Proof.
  intros repo_url Hwf (r1 & Hg1 & Hs1 & Hb1) Hg2 Hs2.
  apply well_formed_url_tests in Hwf as [Hn Hp].
  rewrite review_unfold. unfold try_except, bind. rewrite collect_unfold.
  fold repo_url. rewrite Hn, Hp.
  unfold bind, client_get, lift. rewrite Hg1, Hs1. cbn [Z.eqb Pos.eqb negb].
  rewrite Hb1. cbn [sent requests]. rewrite Hg2.
  apply Z.eqb_neq in Hs2. rewrite Hs2. cbn [negb].
  eexists. split; [reflexivity|].
  cbn [log logged sent requests snd]. now rewrite <- app_assoc.
Qed.

(** X9: a metadata answer with status 200 whose body is not JSON: the
    decoding error of [response.json()] is a [ValueError], so [/review]
    replies 400 and the detail is the text of that decoding error. *)
Theorem unparsable_metadata_gives_400_with_decoder_text (W : World)
    (review_request : ReviewRequest) (s : effects)
    (r : response github_json) (e : exn) :
  let repo_url := github_url_repo review_request in
  well_formed_url W repo_url ->
  github W (requests s) (metadata_url W repo_url) = Ok r ->
  status_code r = 200%Z ->
  body_json r = Raise e ->
  isinstance e ValueError = true ->
  review W review_request s =
    (Ok (HTTPException 400 (exc_str e)), sent s (GET (metadata_url W repo_url))).
Proof.
  intros repo_url Hwf Hg Hs Hb He.
  apply well_formed_url_tests in Hwf as [Hn Hp].
  rewrite review_unfold. unfold try_except, bind. rewrite collect_unfold.
  fold repo_url. rewrite Hn, Hp.
  unfold bind, client_get, lift. rewrite Hg, Hs. cbn [Z.eqb Pos.eqb negb].
  rewrite Hb. cbn [find fst snd]. rewrite He. reflexivity.
Qed.

(** ** No retry: one POST at most *)

Lemma only_sends_none {A} (m : M A) :
  only_sends (fun _ => False) m -> forall s, requests (snd (m s)) = requests s.
Proof.
  intros H s. destruct (H s) as (l & Hr & Hl). destruct l as [|x l].
  - now rewrite app_nil_r in Hr.
  - inversion Hl; contradiction.
Qed.

(** The review client sends nothing when no credential is configured,
    and otherwise sends its POST once, whatever the answer. *)
Lemma get_mistral_review_requests (W : World) (prompt : pystr) (s : effects) :
  requests (snd (get_mistral_review W prompt s)) =
  requests s
  ++ match MISTRAL_API_KEY W with
     | Some (c :: key) => [POST api_url (lit "Bearer " ++ c :: key) prompt]
     | _ => []
     end.
Proof.
  unfold get_mistral_review.
  destruct (MISTRAL_API_KEY W) as [[|c key]|];
    [cbn [raise snd]; now rewrite app_nil_r | | cbn [raise snd]; now rewrite app_nil_r].
  set (auth := lit "Bearer " ++ c :: key).
  assert (H1 : forall e0 : exn, only_sends (fun _ => False)
    (log ERROR
       (lit "HTTP error when accessing Mistral AI API: "
        ++ match exc_response e0 with
           | Some (sc, t) => str_of_Z sc ++ lit " - " ++ t
           | None => []
           end) ;;; @raise json Exception mistral_http_error)).
  { intros e0. apply only_sends_bind; [apply only_sends_log|intros _].
    apply only_sends_raise. }
  assert (H2 : forall e0 : exn, only_sends (fun _ => False)
    (log ERROR (lit "Error when accessing Mistral AI API: " ++ exc_str e0) ;;;
     @raise json Exception (invalid_format ++ exc_str e0))).
  { intros e0. apply only_sends_bind; [apply only_sends_log|intros _].
    apply only_sends_raise. }
  assert (Hk : forall r : response json, only_sends (fun _ => False)
    (raise_for_status W r ;;;
     (response_json <- lift (body_json r) ;; extract_review_text response_json))).
  { intros r. apply only_sends_bind; [apply only_sends_raise_for_status|intros _].
    apply only_sends_bind; [apply only_sends_lift|intros j].
    apply only_sends_extract_review_text. }
  unfold try_except at 1. unfold bind at 1. unfold client_post.
  destruct (mistral W (requests s) api_url auth prompt) as [r|e].
  - pose proof (only_sends_none _ (Hk r) (sent s (POST api_url auth prompt))) as Hr.
    destruct ((raise_for_status W r ;;;
               (response_json <- lift (body_json r) ;;
                extract_review_text response_json))
                (sent s (POST api_url auth prompt))) as [[v|e] s2]; cbn [snd] in Hr.
    + cbn [snd]. exact Hr.
    + cbn [find fst snd isinstance issubclass].
      destruct (exc_class_eqb (exc_type e) HTTPStatusError).
      * exact (eq_trans (only_sends_none _ (H1 e) s2) Hr).
      * exact (eq_trans (only_sends_none _ (H2 e) s2) Hr).
  - cbn [find fst snd isinstance issubclass].
    destruct (exc_class_eqb (exc_type e) HTTPStatusError).
    + exact (only_sends_none _ (H1 e) (sent s (POST api_url auth prompt))).
    + exact (only_sends_none _ (H2 e) (sent s (POST api_url auth prompt))).
Qed.

(** X10: a call of [/review] never retries: its requests are those of
    the collection, which are GET requests, followed by nothing when
    the collection fails or no credential is configured, and otherwise
    by exactly one POST, which carries the configured credential and
    the prompt built from the escaped text the collection returned. *)
Theorem review_posts_at_most_once (W : World) (review_request : ReviewRequest)
    (s : effects) :
  let collected :=
    collect_code_from_github_repo W (github_url_repo review_request) s in
  (exists gets,
     requests (snd collected) = requests s ++ gets /\
     Forall (fun r => is_GET r = true) gets) /\
  requests (snd (review W review_request s)) =
  requests (snd collected)
  ++ match fst collected, MISTRAL_API_KEY W with
     | Ok project_code, Some (c :: key) =>
         [POST api_url (lit "Bearer " ++ c :: key)
            (build_prompt (candidate_level review_request)
               (assignment_description review_request)
               (html_escape project_code))]
     | _, _ => []
     end.
Proof.
  intros collected. split.
  { apply (only_sends_collect W (github_url_repo review_request) s). }
  subst collected.
  destruct (collect_code_from_github_repo W (github_url_repo review_request) s)
    as [[project_code|e] s1] eqn:Hc; cbn [fst snd].
  2:{ destruct (review_reply_of_collection_error W review_request s e s1 Hc)
        as (s' & Hr & Hreq).
      rewrite Hr. cbn [snd]. now rewrite app_nil_r. }
  pose (prompt := build_prompt (candidate_level review_request)
                    (assignment_description review_request)
                    (html_escape project_code)).
  pose (s2 := logged s1 INFO (lit "Sending request to Mistral AI for review.")).
  assert (Hrev : requests (snd (review W review_request s)) =
                 requests (snd (get_mistral_review W prompt s2))).
  { rewrite review_unfold. unfold try_except at 1. unfold bind at 1. rewrite Hc.
    unfold bind at 1. unfold log at 1. unfold bind at 1.
    fold prompt. fold s2.
    destruct (get_mistral_review W prompt s2) as [[v|e] s3]; [reflexivity|].
    cbn [find fst snd].
    destruct (isinstance e ValueError); [reflexivity|].
    destruct (isinstance e HTTPStatusError); [reflexivity|].
    cbn [isinstance issubclass snd]. unfold bind, log. cbv beta.
    destruct (contains (exc_str e) (lit "HTTP error when accessing Mistral AI API"));
      reflexivity. }
  rewrite Hrev, (get_mistral_review_requests W prompt s2).
  fold prompt. destruct (MISTRAL_API_KEY W) as [[|c key]|]; reflexivity.
Qed.

(** ** More on the loop *)

(** X11: the blob requests of the loop are exactly those of the
    eligible entries among the entries listed in the manifest, in tree
    order, one request per entry: a failed fetch is not retried and an
    entry after the stop is not fetched. *)
Theorem blobs_fetched_in_tree_order (W : World) (tree : list tree_item)
    (s : effects) :
  exists st' s' k,
    collect_loop W tree loop_init s = (Ok st', s') /\
    k <= length tree /\
    file_list st' = file_list loop_init ++ manifest_lines (firstn k tree) /\
    requests s' =
      requests s
      ++ map (fun item => GET (url item)) (filter eligible (firstn k tree)).
Proof.
  destruct (collect_loop_total W tree loop_init s) as (st' & s' & Hrun).
  exists st', s'.
  cut (exists k, k <= length tree /\
         file_list st' = file_list loop_init ++ manifest_lines (firstn k tree) /\
         requests s' =
           requests s
           ++ map (fun item => GET (url item)) (filter eligible (firstn k tree))).
  { intros (k & H). exists k. split; [exact Hrun|exact H]. }
  revert Hrun. generalize loop_init. intros st Hrun. revert tree st s st' s' Hrun.
  apply (collect_loop_inv W (fun tree st s st' s' =>
    exists k, k <= length tree /\
      file_list st' = file_list st ++ manifest_lines (firstn k tree) /\
      requests s' =
        requests s
        ++ map (fun item => GET (url item)) (filter eligible (firstn k tree)))).
  - intros st s. exists 0. cbn. rewrite !app_nil_r. auto.
  - intros item rest st s _. exists 0. cbn. rewrite !app_nil_r.
    repeat split; [lia].
  - intros item rest st s s1 st' s' _ Hel Hr (k & Hk & Hl & Hq).
    exists (S k). cbn [firstn filter length]. rewrite Hel.
    repeat split; [lia| |congruence].
    rewrite Hl. cbn [list_path file_list]. unfold manifest_lines.
    cbn [map concat]. now rewrite <- !app_assoc.
  - intros item rest st s s1 st' s' _ Hel _ Hr (k & Hk & Hl & Hq).
    exists (S k). cbn [firstn filter length]. rewrite Hel. cbn [map].
    repeat split; [lia| |].
    + rewrite Hl. cbn [list_path file_list]. unfold manifest_lines.
      cbn [map concat]. now rewrite <- !app_assoc.
    + rewrite Hq, Hr, <- app_assoc. reflexivity.
  - intros item rest st s s1 st' s' fc _ Hel _ _ Hr (k & Hk & Hl & Hq).
    exists (S k). cbn [firstn filter length]. rewrite Hel. cbn [map].
    repeat split; [lia| |].
    + rewrite Hl. cbn [appended file_list]. unfold manifest_lines.
      cbn [map concat]. now rewrite <- !app_assoc.
    + rewrite Hq, Hr, <- app_assoc. reflexivity.
  - intros item rest st s s1 fc _ Hel _ _ Hr.
    exists 1. cbn [firstn filter length]. rewrite Hel. cbn [map].
    repeat split; [lia| |exact Hr].
    cbn [truncated file_list]. unfold manifest_lines. cbn [map concat].
    now rewrite app_nil_r.
Qed.

(** X12: a file that brings the corpus to exactly 20000 characters, or
    the included-file counter to 100, is kept whole and the loop ends
    there without a truncation marker: the entries after it are neither
    listed in the manifest nor fetched. *)
Theorem file_reaching_a_cap_ends_the_loop (W : World) (item : tree_item)
    (rest : list tree_item) (st : loop_state) (s : effects)
    (file_content : pystr) :
  stop_condition st = false ->
  eligible item = true ->
  blob_decodes W (requests s) item file_content ->
  length (code st ++ file_entry (path item) file_content) = max_code_length \/
  (length (code st ++ file_entry (path item) file_content) <= max_code_length /\
   file_count st + 1 = max_files) ->
  collect_loop W (item :: rest) st s =
    (Ok {| code := code st ++ file_entry (path item) file_content;
           file_list := file_list st ++ path item ++ nl;
           file_count := file_count st + 1 |},
     {| requests := requests s ++ [GET (url item)];
        logs := logs s ++ [(INFO, lit "Processing file: " ++ path item)] |}).
Proof.
  intros Hstop Hel Hdec Hcap.
  assert (Hfit : length (code st ++ file_entry (path item) file_content)
                 <= max_code_length) by (destruct Hcap as [H|[H _]]; lia).
  rewrite (loop_decoded W item rest st s file_content Hstop Hel Hdec).
  rewrite (append_file_fits st (path item) file_content Hfit).
  destruct rest as [|next rest]; [reflexivity|].
  apply loop_stop. unfold stop_condition. cbn [appended code file_count].
  apply orb_true_iff. destruct Hcap as [H|[_ H]].
  - right. apply Nat.leb_le. lia.
  - left. apply Nat.leb_le. lia.
Qed.

(** ** More on the collector *)

(** X13: a repository whose tree is empty, or whose tree answer has no
    [tree] key, gives the manifest heading alone: an empty corpus and
    no path; the collector has made its two requests and logged
    nothing. *)
Theorem empty_tree_gives_heading_only (W : World) (repo_url : pystr)
    (s : effects) (d1 d2 : github_json) :
  well_formed_url W repo_url ->
  fetch_succeeds W (requests s) (metadata_url W repo_url) d1 ->
  fetch_succeeds W (requests s ++ [GET (metadata_url W repo_url)])
    (branch_tree_url W repo_url d1) d2 ->
  tree d2 = None \/ tree d2 = Some [] ->
  collect_code_from_github_repo W repo_url s =
    (Ok (nl ++ lit "All repository files:" ++ nl),
     {| requests := requests s ++ [GET (metadata_url W repo_url);
                                   GET (branch_tree_url W repo_url d1)];
        logs := logs s |}).
Proof.
  intros Hwf H1 H2 Ht.
  destruct (collect_run W repo_url s d1 d2 Hwf H1 H2) as (st & s' & Hrun & Hc).
  assert (He : from_option [] (tree d2) = []) by (destruct Ht as [-> | ->]; reflexivity).
  rewrite He in Hrun. cbn [collect_loop ret] in Hrun. inversion Hrun; subst.
  rewrite Hc. unfold sent. cbn [requests logs loop_init code file_list app].
  now rewrite <- app_assoc.
Qed.

(** X14: a repository with a single eligible file that decodes and fits
    gives the header [// File: <path>], the exact decoded text, the
    manifest heading and the path. *)
Theorem single_file_corpus (W : World) (repo_url : pystr) (s : effects)
    (d1 d2 : github_json) (item : tree_item) (file_content : pystr) :
  let s2 := requests s ++ [GET (metadata_url W repo_url);
                           GET (branch_tree_url W repo_url d1)] in
  well_formed_url W repo_url ->
  fetch_succeeds W (requests s) (metadata_url W repo_url) d1 ->
  fetch_succeeds W (requests s ++ [GET (metadata_url W repo_url)])
    (branch_tree_url W repo_url d1) d2 ->
  tree d2 = Some [item] ->
  eligible item = true ->
  blob_decodes W s2 item file_content ->
  length (file_entry (path item) file_content) <= max_code_length ->
  exists s',
    collect_code_from_github_repo W repo_url s =
      (Ok (nl ++ nl ++ lit "// File: " ++ path item ++ nl ++ file_content
           ++ nl ++ lit "All repository files:" ++ nl ++ path item ++ nl),
       s') /\
    requests s' = s2 ++ [GET (url item)].
Proof.
  intros s2 Hwf H1 H2 Ht Hel Hdec Hfit. subst s2.
  destruct (collect_run W repo_url s d1 d2 Hwf H1 H2) as (st & s' & Hrun & Hc).
  rewrite Ht in Hrun. cbn [from_option] in Hrun.
  assert (Hstop : stop_condition loop_init = false).
  { unfold stop_condition, loop_init. cbn [file_count code length].
    apply orb_false_iff. split; [reflexivity|].
    apply Nat.leb_gt.
    assert (0 < length (file_entry (path item) file_content)).
    { unfold file_entry, nl. cbn [app length]. lia. }
    lia. }
  rewrite (loop_decoded W item [] loop_init _ file_content Hstop Hel) in Hrun.
  2:{ unfold sent. cbn [requests]. now rewrite <- app_assoc. }
  rewrite (append_file_fits loop_init (path item) file_content) in Hrun.
  2:{ exact Hfit. }
  cbn [collect_loop ret] in Hrun. inversion Hrun; subst.
  exists (fetched (sent (sent s (GET (metadata_url W repo_url)))
                    (GET (branch_tree_url W repo_url d1))) item).
  split.
  - rewrite Hc. unfold appended, file_entry, loop_init.
    cbn [code file_list app]. now rewrite <- !app_assoc.
  - unfold fetched, sent, logged. cbn [requests]. now rewrite <- !app_assoc.
Qed.

(** ** Escaping *)

Lemma escape_char_no_markup (c : N) :
  Forall (fun c' => markup_char c' = false) (escape_char c).
Proof.
  unfold escape_char.
  destruct (N.eqb c 38) eqn:E38; [repeat constructor|].
  destruct (N.eqb c 60) eqn:E60; [repeat constructor|].
  destruct (N.eqb c 62) eqn:E62; [repeat constructor|].
  destruct (N.eqb c 34) eqn:E34; [repeat constructor|].
  destruct (N.eqb c 39) eqn:E39; [repeat constructor|].
  constructor; [|constructor]. unfold markup_char.
  now rewrite E60, E62, E34, E39.
Qed.

Lemma escape_char_plain (c : N) :
  N.eqb c 38 = false -> markup_char c = false -> escape_char c = [c].
Proof.
  unfold markup_char, escape_char. intros H38 H.
  apply orb_false_iff in H as [H H39]. apply orb_false_iff in H as [H H34].
  apply orb_false_iff in H as [H60 H62].
  now rewrite H38, H60, H62, H34, H39.
Qed.

Lemma escape_char_nonempty (c : N) : 1 <= length (escape_char c).
Proof.
  unfold escape_char.
  repeat match goal with |- context [if ?b then _ else _] => destruct b end;
    cbn; lia.
Qed.

(** X15: [html.escape] as the handler uses it: the escaped text
    contains no [<], [>], double quote or single quote; it is never
    shorter than the text; and a text free of those characters and of
    the ampersand is left as it is. *)
Theorem html_escape_neutralizes_markup (s : pystr) :
  Forall (fun c => markup_char c = false) (html_escape s) /\
  length s <= length (html_escape s) /\
  (Forall (fun c => N.eqb c 38 = false /\ markup_char c = false) s ->
   html_escape s = s).
Proof.
  unfold html_escape. induction s as [|c s (IH1 & IH2 & IH3)].
  - repeat split; [constructor|reflexivity].
  - cbn [flat_map]. split; [|split].
    + apply Forall_app. split; [apply escape_char_no_markup|exact IH1].
    + rewrite length_app. pose proof (escape_char_nonempty c). cbn [length]. lia.
    + intros H. inversion H as [|c' s' [Hc1 Hc2] Hs]; subst.
      rewrite (escape_char_plain c Hc1 Hc2), (IH3 Hs). reflexivity.
Qed.

(** ** The path of the repository URL *)

Lemma lstrip_keeps (c d : N) (m : pystr) :
  d <> c ->
  forall l, exists l0 l', l = l0 ++ l' /\ lstrip c (l ++ d :: m) = l' ++ d :: m.
Proof.
  intros Hd. induction l as [|x l (l0 & l' & Hl & IH)].
  - exists [], []. split; [reflexivity|]. cbn.
    apply N.eqb_neq in Hd. now rewrite Hd.
  - cbn [app lstrip]. destruct (N.eqb x c) eqn:E.
    + exists (x :: l0), l'. split; [now rewrite Hl|exact IH].
    + exists [], (x :: l). split; reflexivity.
Qed.

(** Trimming on the right stops at a character that is not the
    trimmed one. *)
Lemma rstrip_keeps (c d : N) (x y : pystr) :
  d <> c ->
  exists y' z, y = y' ++ z /\ rstrip c (x ++ d :: y) = x ++ d :: y'.
Proof.
  intros Hd. unfold rstrip.
  replace (rev (x ++ d :: y)) with (rev y ++ d :: rev x).
  2:{ rewrite rev_app_distr. cbn [rev]. now rewrite <- app_assoc. }
  destruct (lstrip_keeps c d (rev x) Hd (rev y)) as (l0 & l' & Hl & Hs).
  exists (rev l'), (rev l0). split.
  - rewrite <- rev_app_distr, <- Hl. symmetry. apply rev_involutive.
  - rewrite Hs, rev_app_distr. cbn [rev]. rewrite rev_involutive.
    now rewrite <- app_assoc.
Qed.

Lemma split_no_separator (c : N) (a : pystr) :
  Forall (fun x => x <> c) a -> split c a = [a].
Proof.
  induction 1 as [|x a Hx _ IH]; [reflexivity|].
  cbn [split]. apply N.eqb_neq in Hx. now rewrite Hx, IH.
Qed.

Lemma split_at_separator (c : N) (a rest : pystr) :
  Forall (fun x => x <> c) a -> split c (a ++ c :: rest) = a :: split c rest.
Proof.
  induction 1 as [|x a Hx _ IH].
  - cbn [app split]. now rewrite N.eqb_refl.
  - cbn [app split]. apply N.eqb_neq in Hx. now rewrite Hx, IH.
Qed.

Lemma nonempty_last {A} (l : list A) : l <> [] -> exists l0 d, l = l0 ++ [d].
Proof.
  intros H. destruct (exists_last H) as (l0 & d & ->). now exists l0, d.
Qed.

(** The segments of a path [/owner/repo], possibly followed by a slash
    and anything. *)
Lemma path_parts_of_repository_path (o r tail : pystr) :
  o <> [] -> r <> [] ->
  Forall (fun c => c <> slash) o -> Forall (fun c => c <> slash) r ->
  tail = [] \/ (exists t, tail = slash :: t) ->
  exists more, split slash (strip slash (slash :: o ++ slash :: r ++ tail))
               = o :: r :: more.
Proof.
  intros Ho Hr Fo Fr Ht. unfold strip.
  assert (Hl : lstrip slash (slash :: o ++ slash :: r ++ tail)
               = o ++ slash :: r ++ tail).
  { cbn [lstrip]. rewrite N.eqb_refl. destruct o as [|oh ot]; [contradiction|].
    inversion Fo as [|? ? Hoh _]; subst. cbn [app lstrip].
    apply N.eqb_neq in Hoh. now rewrite Hoh. }
  rewrite Hl.
  destruct (nonempty_last r Hr) as (r0 & rd & ->).
  assert (Hrd : rd <> slash).
  { apply Forall_app in Fr as [_ Fr]. now inversion Fr. }
  destruct (rstrip_keeps slash rd (o ++ slash :: r0) tail Hrd)
    as (y' & z & Hy & Hs).
  replace (o ++ slash :: (r0 ++ [rd]) ++ tail)
    with ((o ++ slash :: r0) ++ rd :: tail).
  2:{ rewrite <- !app_assoc. reflexivity. }
  rewrite Hs.
  replace ((o ++ slash :: r0) ++ rd :: y') with (o ++ slash :: (r0 ++ [rd]) ++ y').
  2:{ rewrite <- !app_assoc. reflexivity. }
  rewrite (split_at_separator slash o _ Fo).
  destruct y' as [|yh yt].
  - rewrite app_nil_r, (split_no_separator slash _ Fr). now exists [].
  - assert (yh = slash).
    { destruct Ht as [-> | [t ->]]; [destruct z; discriminate|].
      cbn [app] in Hy. now inversion Hy. }
    subst yh. rewrite (split_at_separator slash _ yt Fr). now eexists.
Qed.

(** X16: for a URL whose path is [/owner/repo], optionally followed by
    a slash and further segments, the collector takes [owner] and
    [repo] as the owner and the repository name, so that the metadata
    request goes to [https://api.github.com/repos/owner/repo]; with the
    host [github.com] the URL is well formed. *)
Theorem owner_and_repository_from_path (W : World) (repo_url o r tail : pystr) :
  url_path (urlparse W repo_url) = slash :: o ++ slash :: r ++ tail ->
  o <> [] -> r <> [] ->
  Forall (fun c => c <> slash) o -> Forall (fun c => c <> slash) r ->
  tail = [] \/ (exists t, tail = slash :: t) ->
  owner W repo_url = o /\
  repo_name W repo_url = r /\
  metadata_url W repo_url = lit "https://api.github.com/repos/" ++ o ++ lit "/" ++ r /\
  2 <= length (path_parts W repo_url).
Proof.
  intros Hp Ho Hr Fo Fr Ht.
  destruct (path_parts_of_repository_path o r tail Ho Hr Fo Fr Ht) as (more & Hs).
  unfold metadata_url, owner, repo_name, path_parts. rewrite Hp, Hs.
  cbn [nth length]. repeat split. lia.
Qed.

(** ** The validator and the collector *)

(** X17: a URL that [validate_github_url] accepts is returned
    unchanged and has the host [github.com], so the domain check of the
    collector cannot fail for it: the URL is well formed for the
    collector, or [/review] replies 400 with [Invalid path ...] at
    once (the validator does not look at the path). *)
Theorem validated_url_passes_domain_check (W : World)
    (validators_url : pystr -> bool) (review_request : ReviewRequest)
    (s : effects) (v : pystr) :
  validate_github_url W validators_url (github_url_repo review_request) = Ok v ->
  v = github_url_repo review_request /\
  netloc (urlparse W v) = lit "github.com" /\
  (well_formed_url W v \/
   review W review_request s =
     (Ok (HTTPException 400 (lit "Invalid path in GitHub repository URL.")), s)).
Proof.
  unfold validate_github_url, value_error.
  destruct (validators_url (github_url_repo review_request)); [|discriminate].
  cbn [negb].
  destruct (pystr_eqb (netloc (urlparse W (github_url_repo review_request)))
              (lit "github.com")) eqn:Hn; [|discriminate].
  cbn [negb]. intros H. inversion H; subst. split; [reflexivity|].
  pose proof Hn as Hnet. apply pystr_eqb_eq in Hnet. split; [exact Hnet|].
  destruct (le_lt_dec 2 (length (path_parts W (github_url_repo review_request))))
    as [Hp|Hp].
  - left. split; assumption.
  - right. rewrite review_of_malformed_url.
    + rewrite Hn. reflexivity.
    + intros [_ H2]. lia.
Qed.

(** ** The further properties on the mocked services *)

(** [test_review_success], by its hypotheses. *)
Lemma well_formed_answer_gives_review_witness :
  exists s',
    review Mock.world_success (Mock.test_request Mock.testrepo_url) no_effects =
      (Ok (Review (JStr (lit "This is a test review from Mistral AI."))), s') /\
    length (requests s') = 4.
Proof.
  pose (run := collect_code_from_github_repo Mock.world_success
                 Mock.testrepo_url no_effects).
  assert (H : run = (Ok (match fst run with Ok o => o | Raise _ => [] end), snd run))
    by (vm_compute; reflexivity).
  destruct (well_formed_answer_gives_review Mock.world_success
              (Mock.test_request Mock.testrepo_url) no_effects _ _
              (lit "test-key") (Mock.json_response 200 Mock.review_envelope)
              Mock.review_envelope
              (JStr (lit "This is a test review from Mistral AI.")) H)
    as (s' & Hr & Hreq).
  - reflexivity.
  - discriminate.
  - vm_compute; reflexivity.
  - unfold in_2xx. cbn. lia.
  - reflexivity.
  - eexists _, _, _, _. repeat split; reflexivity.
  - exists s'. split; [exact Hr|]. rewrite Hreq. vm_compute. reflexivity.
Defined.

(** A 200 answer that is the empty object. *)
Lemma malformed_envelope_gives_generic_500_witness :
  exists s',
    review Mock.world_bad_envelope (Mock.test_request Mock.testrepo_url) no_effects =
      (Ok (HTTPException 500
             (lit "An internal server error occurred. Please try again later.")),
       s') /\
    length (requests s') = 4.
Proof.
  pose (run := collect_code_from_github_repo Mock.world_bad_envelope
                 Mock.testrepo_url no_effects).
  assert (H : run = (Ok (match fst run with Ok o => o | Raise _ => [] end), snd run))
    by (vm_compute; reflexivity).
  destruct (malformed_envelope_gives_generic_500 Mock.world_bad_envelope
              (Mock.test_request Mock.testrepo_url) no_effects _ _
              (lit "test-key") (Mock.json_response 200 (JDict [])) (JDict []) H)
    as (s' & Hr & Hreq).
  - reflexivity.
  - discriminate.
  - vm_compute; reflexivity.
  - unfold in_2xx. cbn. lia.
  - reflexivity.
  - intros v (kv & kvc & rest & kvm & Hj & Hc & _).
    inversion Hj; subst. discriminate.
  - exists s'. split; [exact Hr|]. rewrite Hreq. vm_compute. reflexivity.
Defined.

Lemma empty_api_key_gives_generic_500_witness :
  exists s',
    review Mock.world_empty_key (Mock.test_request Mock.testrepo_url) no_effects =
      (Ok (HTTPException 500
             (lit "An internal server error occurred. Please try again later.")),
       s') /\
    requests s' = [GET Mock.testrepo_api; GET Mock.testrepo_tree; GET Mock.blob_sha1].
Proof.
  pose (run := collect_code_from_github_repo Mock.world_empty_key
                 Mock.testrepo_url no_effects).
  assert (H : run = (Ok (match fst run with Ok o => o | Raise _ => [] end), snd run))
    by (vm_compute; reflexivity).
  destruct (empty_api_key_gives_generic_500 Mock.world_empty_key
              (Mock.test_request Mock.testrepo_url) no_effects _ _ H eq_refl)
    as (s' & Hr & Hreq).
  exists s'. split; [exact Hr|]. rewrite Hreq. vm_compute. reflexivity.
Defined.

(** The tree cannot be fetched: the collector raises, no POST follows. *)
Lemma collection_failure_skips_completion_witness :
  exists s' gets,
    review Mock.world_tree_404 (Mock.test_request Mock.testrepo_url) no_effects =
      (Ok (HTTPException 400 (lit "Failed to retrieve GitHub repository content.")),
       s') /\
    requests s' = requests no_effects ++ gets /\
    Forall (fun r => is_GET r = true) gets.
Proof.
  pose (run := collect_code_from_github_repo Mock.world_tree_404
                 Mock.testrepo_url no_effects).
  assert (H : run = (Raise (match fst run with Raise e => e | Ok _ => Mock.no_exception end),
                     snd run))
    by (vm_compute; reflexivity).
  exact (collection_failure_skips_completion Mock.world_tree_404
           (Mock.test_request Mock.testrepo_url) no_effects _ _ H).
Defined.

(** A URL with one path segment. *)
Lemma malformed_url_gives_400_at_once_witness :
  review Mock.world_success (Mock.test_request Mock.owner_only_url) no_effects =
    (Ok (HTTPException 400 (lit "Invalid path in GitHub repository URL.")),
     no_effects).
Proof.
  apply (malformed_url_gives_400_at_once Mock.world_success
           (Mock.test_request Mock.owner_only_url) no_effects).
  intros [_ H]. vm_compute in H. lia.
Defined.

Lemma tree_failure_gives_400_witness :
  exists s',
    review Mock.world_tree_404 (Mock.test_request Mock.testrepo_url) no_effects =
      (Ok (HTTPException 400 (lit "Failed to retrieve GitHub repository content.")),
       s') /\
    requests s' = [GET Mock.testrepo_api; GET Mock.testrepo_tree].
Proof.
  apply (tree_failure_gives_400 Mock.world_tree_404
           (Mock.test_request Mock.testrepo_url) no_effects
           (Mock.repo_json (lit "main")) (Mock.text_response 404 [])).
  - split; [reflexivity|]. vm_compute. lia.
  - exists (Mock.json_response 200 (Mock.repo_json (lit "main"))).
    repeat split; reflexivity.
  - reflexivity.
  - discriminate.
Defined.

Lemma unparsable_metadata_gives_400_with_decoder_text_witness :
  review Mock.world_bad_metadata (Mock.test_request Mock.testrepo_url) no_effects =
    (Ok (HTTPException 400 (lit "Expecting value: line 1 column 1 (char 0)")),
     sent no_effects (GET Mock.testrepo_api)).
Proof.
  apply (unparsable_metadata_gives_400_with_decoder_text Mock.world_bad_metadata
           (Mock.test_request Mock.testrepo_url) no_effects
           (Mock.text_response 200 (lit "<html>"))
           {| exc_type := JSONDecodeError;
              exc_str := lit "Expecting value: line 1 column 1 (char 0)";
              exc_response := None |}).
  - split; [reflexivity|]. vm_compute. lia.
  - reflexivity.
  - reflexivity.
  - reflexivity.
  - reflexivity.
Defined.

(** The hundredth file: counted, kept whole, and the loop is over. *)
Lemma file_reaching_a_cap_ends_the_loop_witness :
  collect_loop Mock.world_success [Mock.main_py; Mock.readme]
    {| code := []; file_list := []; file_count := 99 |} no_effects =
    (Ok {| code := file_entry (lit "main.py") (lit "print('Hello, World!')");
           file_list := lit "main.py" ++ nl;
           file_count := 100 |},
     {| requests := [GET Mock.blob_sha1];
        logs := [(INFO, lit "Processing file: " ++ lit "main.py")] |}).
Proof.
  apply (file_reaching_a_cap_ends_the_loop Mock.world_success Mock.main_py
           [Mock.readme] {| code := []; file_list := []; file_count := 99 |}
           no_effects (lit "print('Hello, World!')")).
  - vm_compute; reflexivity.
  - vm_compute; reflexivity.
  - exists (snd Mock.hello_blob),
      (Mock.blob_json (lit "cHJpbnQoJ0hlbGxvLCBXb3JsZCEnKQ==") (lit "base64")).
    eexists. repeat split; vm_compute; reflexivity.
  - right. split; [|reflexivity]. apply Nat.leb_le. vm_compute. reflexivity.
Defined.

Lemma empty_tree_gives_heading_only_witness :
  collect_code_from_github_repo Mock.world_empty_tree Mock.testrepo_url no_effects =
    (Ok (nl ++ lit "All repository files:" ++ nl),
     {| requests := [GET Mock.testrepo_api; GET Mock.testrepo_tree]; logs := [] |}).
Proof.
  apply (empty_tree_gives_heading_only Mock.world_empty_tree Mock.testrepo_url
           no_effects (Mock.repo_json (lit "main")) (Mock.tree_json [])).
  - split; [reflexivity|]. vm_compute. lia.
  - exists (Mock.json_response 200 (Mock.repo_json (lit "main"))).
    repeat split; reflexivity.
  - exists (Mock.json_response 200 (Mock.tree_json [])).
    repeat split; reflexivity.
  - right. reflexivity.
Defined.

(** The corpus of [test_review_success]. *)
Lemma single_file_corpus_witness :
  exists s',
    collect_code_from_github_repo Mock.world_success Mock.testrepo_url no_effects =
      (Ok (nl ++ nl ++ lit "// File: " ++ lit "main.py" ++ nl
           ++ lit "print('Hello, World!')"
           ++ nl ++ lit "All repository files:" ++ nl ++ lit "main.py" ++ nl),
       s') /\
    requests s' = [GET Mock.testrepo_api; GET Mock.testrepo_tree; GET Mock.blob_sha1].
Proof.
  apply (single_file_corpus Mock.world_success Mock.testrepo_url no_effects
           (Mock.repo_json (lit "main")) (Mock.tree_json [Mock.main_py])
           Mock.main_py (lit "print('Hello, World!')")).
  - split; [reflexivity|]. vm_compute. lia.
  - exists (Mock.json_response 200 (Mock.repo_json (lit "main"))).
    repeat split; reflexivity.
  - exists (Mock.json_response 200 (Mock.tree_json [Mock.main_py])).
    repeat split; reflexivity.
  - reflexivity.
  - vm_compute; reflexivity.
  - exists (snd Mock.hello_blob),
      (Mock.blob_json (lit "cHJpbnQoJ0hlbGxvLCBXb3JsZCEnKQ==") (lit "base64")).
    eexists. repeat split; vm_compute; reflexivity.
  - apply Nat.leb_le. vm_compute. reflexivity.
Defined.

Lemma owner_and_repository_from_path_witness :
  owner Mock.world_success Mock.testrepo_url = lit "testuser" /\
  repo_name Mock.world_success Mock.testrepo_url = lit "testrepo" /\
  metadata_url Mock.world_success Mock.testrepo_url =
    lit "https://api.github.com/repos/" ++ lit "testuser" ++ lit "/" ++ lit "testrepo" /\
  2 <= length (path_parts Mock.world_success Mock.testrepo_url).
Proof.
  apply (owner_and_repository_from_path Mock.world_success Mock.testrepo_url
           (lit "testuser") (lit "testrepo") []).
  - reflexivity.
  - discriminate.
  - discriminate.
  - repeat constructor; discriminate.
  - repeat constructor; discriminate.
  - now left.
Defined.

(** A URL the validator accepts and the collector refuses. *)
Lemma validated_url_passes_domain_check_witness :
  Mock.owner_only_url = Mock.owner_only_url /\
  netloc (urlparse Mock.world_success Mock.owner_only_url) = lit "github.com" /\
  (well_formed_url Mock.world_success Mock.owner_only_url \/
   review Mock.world_success (Mock.test_request Mock.owner_only_url) no_effects =
     (Ok (HTTPException 400 (lit "Invalid path in GitHub repository URL.")),
      no_effects)).
Proof.
  apply (validated_url_passes_domain_check Mock.world_success (fun _ => true)
           (Mock.test_request Mock.owner_only_url) no_effects Mock.owner_only_url).
  reflexivity.
Defined.
